(** * scripts/fight_script.py: the controller battle loop

    A shallow embedding of the script that lists the workload controllers and
    pods of a namespace through [kubectl], scales one controller down per
    round and stops when an end condition is met.

    The cluster, the random source, the clock and [time.sleep] are outside the
    script: they are the operations of an arbitrary [World], fixed as section
    variables.  So are the parser behind [datetime.strptime] and the two
    builtins that read the replica count, [str.isdigit] and [int]: the script
    is embedded with whatever they answer, [int] with its [ValueError], and
    [time.sleep] with whatever it raises.  Every function of the script is a
    computation in a state and exception monad over that world, a trace of
    the external events and the log lines written so far.

    Text is [string]. *)

From Stdlib Require Import String Ascii List ZArith Bool Lia DecimalString.
Import ListNotations.
Local Open Scope string_scope.
Local Open Scope Z_scope.

(** ** The string methods the script uses *)

(** [str.isspace] on one ASCII character: tab to carriage return, the four
    separators 28 to 31 and the space. *)
Definition py_isspace (c : ascii) : bool :=
  let n := nat_of_ascii c in
  ((9 <=? n) && (n <=? 13) || (28 <=? n) && (n <=? 32))%nat.

Fixpoint py_lstrip (s : string) : string :=
  match s with
  | EmptyString => EmptyString
  | String c r => if py_isspace c then py_lstrip r else s
  end.

Fixpoint py_rstrip (s : string) : string :=
  match s with
  | EmptyString => EmptyString
  | String c r =>
      match py_rstrip r with
      | EmptyString => if py_isspace c then EmptyString else String c EmptyString
      | r' => String c r'
      end
  end.

(** [s.strip()] *)
Definition py_strip (s : string) : string := py_rstrip (py_lstrip s).

(** [s.replace(c, empty)] for a one-character [c]. *)
Fixpoint py_remove (c : ascii) (s : string) : string :=
  match s with
  | EmptyString => EmptyString
  | String d r => if Ascii.eqb d c then py_remove c r else String d (py_remove c r)
  end.

(** [s.split(c)] for a one-character separator: never the empty list, and an
    empty piece for every separator at an end or next to another one. *)
Fixpoint py_split (c : ascii) (s : string) : list string :=
  match s with
  | EmptyString => [EmptyString]
  | String d r =>
      if Ascii.eqb d c then EmptyString :: py_split c r
      else match py_split c r with
           | h :: t => String d h :: t
           | [] => [String d EmptyString]
           end
  end.

(** [str(n)] for an integer. *)
Definition py_str (n : Z) : string := NilZero.string_of_int (Z.to_int n).

(** Truth value of a string: non-empty. *)
Definition nonempty (s : string) : bool :=
  match s with EmptyString => false | _ => true end.

(** Truth value of [None] or a string. *)
Definition truthy (o : option string) : bool :=
  match o with
  | None => false
  | Some s => nonempty s
  end.

(** [o or d] where [o] is [None] or a string. *)
Definition or_else (o : option string) (d : string) : string :=
  match o with
  | Some (String c r) => String c r
  | _ => d
  end.

Definition nl : ascii := ascii_of_nat 10.
Definition quote : ascii := ascii_of_nat 39.
Definition dquote : string := String (ascii_of_nat 34) EmptyString.

(** ** Exceptions, commands, events and log lines *)

Inductive exn :=
| ValueError
| OSError
| IndexError
| OverflowError
| KeyboardInterrupt.

(** [except Exception] catches everything but the interrupt. *)
Definition is_Exception (e : exn) : bool :=
  match e with
  | KeyboardInterrupt => false
  | _ => true
  end.

(** The first argument of [subprocess.run]: an argument list or a shell line. *)
Inductive cmdarg :=
| CList (argv : list string)
| CStr (line : string).

(** What [subprocess.run(..., check=True, capture_output=True, text=True)]
    does: it returns with exit status zero and the captured output, raises
    [CalledProcessError] for any other exit status, or raises something else
    (the program cannot be started, the user interrupts). *)
Inductive proc_result :=
| Completed (stdout : string)
| CalledProcessError (stderr : string)
| Raised (e : exn).

Inductive fn :=
| FnGetControllers
| FnGetPodMetrics
| FnSelect
| FnReduce.

(** The trace: the external effects in order, and the entry into each function
    that [battle] calls.  A call of [time.sleep] is in the trace as [EvSleep]
    when it completed and as [EvSleepFailed] when it raised. *)
Inductive event :=
| EvRun (cmd : cmdarg) (shell : bool) (r : proc_result)
| EvChoice (n : nat) (i : nat)
| EvNow (micros : Z)
| EvSleep (secs : Z)
| EvSleepFailed (secs : Z) (e : exn)
| EvCall (f : fn).

Inductive level := DEBUG | INFO | WARNING | ERROR.

(** A value stored in the metrics dictionary: [None], a string, or the float
    of [timedelta.total_seconds()], kept as its number of microseconds. *)
Inductive pyval :=
| PNone
| PStr (s : string)
| PSeconds (micros : Z).

Definition metrics := list (string * pyval).

(** One constructor per logging call of the script, with the values that the
    call formats into its line. *)
Inductive message :=
| MsgCommandFailed
| MsgErrorOutput (stderr : string)
| MsgGettingControllers (namespace : string)
| MsgNamespaceMissing (namespace : string)
| MsgNoControllersInNamespace
| MsgFound (pods controllers : nat)
| MsgMetricsError (pod : string) (e : exn)
| MsgNoReplicaCount (kind name : string)
| MsgReducing (kind name replicas : string) (new_replicas : Z)
| MsgStart (namespace : string)
| MsgStrategy (strategy : string) (interval : Z)
| MsgRound (round_num : Z)
| MsgNoControllers
| MsgNoPods
| MsgRemaining (controllers : nat)
| MsgCurrentPods (pods : nat)
| MsgPod (pod : string) (reported : metrics)
| MsgWinnerPod (pod : string)
| MsgWinnerController (controller : string)
| MsgMaxRounds (max_rounds : Z)
| MsgNextRound (interval : Z)
| MsgStopped
| MsgBattleError (e : exn).

Inductive result (A : Type) :=
| Ret (a : A)
| Raise (e : exn).
Arguments Ret {A} a.
Arguments Raise {A} e.

Inductive control := Break | Continue.

(** What [get_controllers] returns: the bare empty list of its early return,
    or the pair of the two lists. *)
Inductive enumeration :=
| EmptyList
| Pair (controllers pods : list string).

Definition truthy_val (v : pyval) : bool :=
  match v with
  | PNone => false
  | PStr s => nonempty s
  | PSeconds micros => negb (micros =? 0)
  end.

Definition of_option (o : option string) : pyval :=
  match o with
  | None => PNone
  | Some s => PStr s
  end.

(** [d[k] = v] on a dictionary kept in insertion order. *)
Fixpoint dict_set (d : metrics) (k : string) (v : pyval) : metrics :=
  match d with
  | [] => [(k, v)]
  | (k', v') :: rest =>
      if String.eqb k' k then (k, v) :: rest else (k', v') :: dict_set rest k v
  end.

(** The pairs that the round's log line keeps: those of [metrics.items()]
    whose value is true. *)
Definition reported (m : metrics) : metrics :=
  filter (fun kv => truthy_val (snd kv)) m.

(** How an f-string formats [None] or a string. *)
Definition fmt (o : option string) : string :=
  match o with
  | None => "None"
  | Some s => s
  end.

(** [o == k] for [None] or a string. *)
Definition is_kind (o : option string) (k : string) : bool :=
  match o with
  | None => false
  | Some s => String.eqb s k
  end.

Definition is_nil {A : Type} (l : list A) : bool :=
  match l with
  | [] => true
  | _ => false
  end.

(** The names in one listing output: the single quotes are removed and the
    rest is split at every newline. *)
Definition names_of (output : string) : list string :=
  py_split nl (py_remove quote output).

(** The loop of [get_controllers] over the three listing outputs. *)
Definition combine_controllers (outputs : list string) : list string :=
  fold_left
    (fun controllers output =>
       if nonempty output then (controllers ++ names_of output)%list
       else controllers)
    outputs [].

Definition jsonpath_names : string :=
  "jsonpath='{range .items[*]}{.metadata.name}{" ++ dquote ++ "\n" ++ dquote ++ "}{end}'".

Definition namespace_cmd (namespace : string) : cmdarg :=
  CList ["kubectl"; "get"; "namespace"; namespace; "--no-headers"; "--request-timeout=5s"].

Definition list_cmd (resource namespace : string) : cmdarg :=
  CList ["kubectl"; "get"; resource; "-n"; namespace; "-o"; jsonpath_names;
         "--request-timeout=5s"].

Definition cpu_cmd (pod_name namespace : string) : cmdarg :=
  CStr ("kubectl top pod " ++ pod_name ++ " -n " ++ namespace
        ++ " --no-headers | awk '{print $2}'").

Definition mem_cmd (pod_name namespace : string) : cmdarg :=
  CStr ("kubectl top pod " ++ pod_name ++ " -n " ++ namespace
        ++ " --no-headers | awk '{print $3}'").

Definition restart_cmd (pod_name namespace : string) : cmdarg :=
  CStr ("kubectl get pod " ++ pod_name ++ " -n " ++ namespace
        ++ " -o jsonpath='{.status.containerStatuses[0].restartCount}'").

Definition age_cmd (pod_name namespace : string) : cmdarg :=
  CStr ("kubectl get pod " ++ pod_name ++ " -n " ++ namespace
        ++ " -o jsonpath='{.metadata.creationTimestamp}'").

Definition probe_cmd (kind controller namespace : string) : cmdarg :=
  CStr ("kubectl get " ++ kind ++ " " ++ controller ++ " -n " ++ namespace).

(** The kind that [reduce_controller] acts on: anything that is neither
    "deployment" nor "statefulset" goes the replicaset way. *)
Definition kind_of (controller_type : option string) : string :=
  if is_kind controller_type "deployment" then "deployment"
  else if is_kind controller_type "statefulset" then "statefulset"
  else "replicaset".

Definition replicas_cmd (kind controller_name namespace : string) : cmdarg :=
  CStr ("kubectl get " ++ kind ++ " " ++ controller_name ++ " -n " ++ namespace
        ++ " -o jsonpath='{.spec.replicas}'").

Definition scale_cmd (kind controller_name namespace : string) (new_replicas : Z) : cmdarg :=
  CList ["kubectl"; "scale"; kind; controller_name; "--replicas"; py_str new_replicas;
         "-n"; namespace].

(** A scale call of the client. *)
Definition is_scale (c : cmdarg) : bool :=
  match c with
  | CList (_ :: verb :: _) => String.eqb verb "scale"
  | _ => false
  end.

Definition is_scale_event (ev : event) : bool :=
  match ev with
  | EvRun c _ _ => is_scale c
  | _ => false
  end.

Definition is_call (f : fn) (ev : event) : bool :=
  match ev, f with
  | EvCall FnGetControllers, FnGetControllers => true
  | EvCall FnGetPodMetrics, FnGetPodMetrics => true
  | EvCall FnSelect, FnSelect => true
  | EvCall FnReduce, FnReduce => true
  | _, _ => false
  end.

(** The number of invocations of [reduce_controller] in a trace. *)
Definition reduce_calls (evs : list event) : nat :=
  length (filter (is_call FnReduce) evs).

(** A probe resolves when the command completes with something left after
    stripping. *)
Definition resolves (r : proc_result) : bool :=
  match r with
  | Completed out => nonempty (py_strip out)
  | _ => false
  end.

(** A probe that run_command turns into no data: a non-zero exit status, or
    nothing but white space on the output. *)
Definition no_data (r : proc_result) : bool :=
  match r with
  | Completed out => negb (nonempty (py_strip out))
  | CalledProcessError _ => true
  | Raised _ => false
  end.

(** What the caller of run_command has after replacing no data by the empty
    string: the stripped output of a command that completed. *)
Definition output (r : proc_result) : string :=
  match r with
  | Completed out => py_strip out
  | _ => EmptyString
  end.

(** What run_command returns for a command that did not raise. *)
Definition data (r : proc_result) : option string :=
  match r with
  | Completed out => Some (py_strip out)
  | _ => None
  end.

(** ** What the further properties speak of *)

(** The three kinds of controller that the script knows. *)
Definition kinds : list string := ["deployment"; "statefulset"; "replicaset"].

(** A call of [time.sleep] that completed. *)
Definition is_sleep (ev : event) : bool :=
  match ev with
  | EvSleep _ => true
  | _ => false
  end.

(** The number of calls of [time.sleep] in a trace that completed. *)
Definition sleeps (evs : list event) : nat := length (filter is_sleep evs).

(** A call of [time.sleep] that raised. *)
Definition is_sleep_failed (ev : event) : bool :=
  match ev with
  | EvSleepFailed _ _ => true
  | _ => false
  end.

(** The number of calls of [time.sleep] in a trace that raised. *)
Definition sleep_failures (evs : list event) : nat :=
  length (filter is_sleep_failed evs).

(** The number of rounds begun in a trace: the entries into get_controllers. *)
Definition enumerations (evs : list event) : nat :=
  length (filter (is_call FnGetControllers) evs).

(** The number of scale commands in a trace. *)
Definition scale_count (evs : list event) : nat := length (filter is_scale_event evs).

(** A scale command in the trace acts in the given namespace, on one of the
    given controllers, whose name is not empty, with one of the three kinds
    and a replica count that is not negative. *)
Definition safe_scale (namespace : string) (controllers : list string) (ev : event) : Prop :=
  match ev with
  | EvRun c _ _ =>
      is_scale c = true ->
      exists kind name n,
        c = scale_cmd kind name namespace n /\ In kind kinds /\
        In name controllers /\ name <> EmptyString /\ 0 <= n
  | _ => True
  end.

(** The function whose logging call writes a message. *)
Inductive origin :=
| ByRunCommand
| ByGetControllers
| ByGetPodMetrics
| ByReduceController
| ByBattle
| ByMain.

Definition origin_of (msg : message) : origin :=
  match msg with
  | MsgCommandFailed | MsgErrorOutput _ => ByRunCommand
  | MsgGettingControllers _ | MsgNamespaceMissing _ | MsgNoControllersInNamespace
  | MsgFound _ _ => ByGetControllers
  | MsgMetricsError _ _ => ByGetPodMetrics
  | MsgNoReplicaCount _ _ | MsgReducing _ _ _ _ => ByReduceController
  | MsgStart _ | MsgStrategy _ _ | MsgRound _ | MsgNoControllers | MsgNoPods
  | MsgRemaining _ | MsgCurrentPods _ | MsgPod _ _ | MsgWinnerPod _
  | MsgWinnerController _ | MsgMaxRounds _ | MsgNextRound _ => ByBattle
  | MsgStopped | MsgBattleError _ => ByMain
  end.

(** A log line that is not one of [battle]'s own. *)
Definition below_battle (lm : level * message) : Prop :=
  origin_of (snd lm) <> ByBattle /\ origin_of (snd lm) <> ByMain.

(** The round numbers announced in a log, in order. *)
Definition round_lines (l : list (level * message)) : list Z :=
  flat_map (fun lm => match snd lm with MsgRound n => [n] | _ => [] end) l.

(** The pods whose metrics line is in a log, in order. *)
Definition pod_lines (l : list (level * message)) : list string :=
  flat_map (fun lm => match snd lm with MsgPod pod _ => [pod] | _ => [] end) l.

Definition is_controller_winner (lm : level * message) : bool :=
  match snd lm with
  | MsgWinnerController _ => true
  | _ => false
  end.

(** A log line that neither announces a round nor names a controller as the
    winner. *)
Definition within_round (lm : level * message) : Prop :=
  round_lines [lm] = [] /\ is_controller_winner lm = false.

(** Every character of a string passes a test. *)
Fixpoint string_all (f : ascii -> bool) (s : string) : bool :=
  match s with
  | EmptyString => true
  | String c r => f c && string_all f r
  end.

Definition is_separator (c : ascii) : bool := Ascii.eqb c quote || Ascii.eqb c nl.

(** A character that a name in a listing can hold. *)
Definition is_name_char (c : ascii) : bool := negb (is_separator c).

(** An event inside a round: not a call of [time.sleep], and not the entry
    into get_controllers, with which a round begins. *)
Definition inner (ev : event) : Prop :=
  is_sleep ev = false /\ is_sleep_failed ev = false /\
  is_call FnGetControllers ev = false.

(** The trace of what follows the enumeration in a round that ends with [r]:
    when the round goes on to the next one, events inside the round and then
    the one sleep, for the interval, which is not negative; when it raises
    what [time.sleep] raised, events inside the round and then that call;
    otherwise events inside the round only. *)
Definition ends_round (interval : Z) (r : result control) (new : list event) : Prop :=
  (r = Ret Continue /\ 0 <= interval /\
   exists pre, new = (pre ++ [EvSleep interval])%list /\ Forall inner pre) \/
  (exists e pre, r = Raise e /\ new = (pre ++ [EvSleepFailed interval e])%list /\
                 Forall inner pre) \/
  (r <> Ret Continue /\ Forall inner new).

(** A sleep in a trace is one for the given interval. *)
Definition sleeps_for (interval : Z) (ev : event) : Prop :=
  is_sleep ev = true -> ev = EvSleep interval.

(** A command that the user interrupted. *)
Definition is_interrupt (ev : event) : bool :=
  match ev with
  | EvRun _ _ (Raised KeyboardInterrupt) => true
  | _ => false
  end.

(** A trace with its result stops at an interrupt: no command of it was
    interrupted, or the last one was and the interrupt is the result. *)
Definition stops_at_interrupt {A : Type} (r : result A) (new : list event) : Prop :=
  Forall (fun ev => is_interrupt ev = false) new \/
  (r = Raise KeyboardInterrupt /\
   exists pre ev, new = (pre ++ [ev])%list /\ is_interrupt ev = true /\
                  Forall (fun ev => is_interrupt ev = false) pre).

(** An event that is no part of a reduction: not the entry into the selection
    or into reduce_controller, and not a scale command. *)
Definition no_reduction (ev : event) : Prop :=
  is_call FnSelect ev = false /\ is_call FnReduce ev = false /\ is_scale_event ev = false.

(** ** A scripted world

    The answers of the client are given in advance and handed out in order,
    whatever the command; when they run out every command exits with a
    non-zero status.  The random source always draws zero, the clock stands at
    a fixed instant and the parser accepts the one time stamp of the
    examples. *)

Definition script := list proc_result.

Definition script_exec (_ : cmdarg) (_ : bool) (w : script) : proc_result * script :=
  match w with
  | [] => (CalledProcessError "", [])
  | r :: w' => (r, w')
  end.

Definition script_rand (w : script) : nat * script := (0%nat, w).

Definition script_utcnow (w : script) : Z * script := (1700000060000000, w).

Definition script_sleep (_ : Z) (w : script) : option exn * script := (None, w).

(** A wait that the user interrupts. *)
Definition script_interrupted_sleep (_ : Z) (w : script) : option exn * script :=
  (Some KeyboardInterrupt, w).

Definition script_strptime (s : string) : option Z :=
  if String.eqb s "2023-11-14T22:13:20Z" then Some 1700000000 else None.

(** The interpreter of the scripted world, for the replica counts of the
    examples, which are ASCII text: [str.isdigit] accepts the strings of one
    digit or more, and [int] reads them in base ten, up to the 4300 digits of
    the interpreter's default limit; beyond it, and for the other strings of
    the examples, [int] raises [ValueError], which is [None] here. *)
Definition ascii_digit (c : ascii) : bool :=
  let n := nat_of_ascii c in ((48 <=? n) && (n <=? 57))%nat.

Fixpoint ascii_digits (s : string) : bool :=
  match s with
  | EmptyString => true
  | String c r => ascii_digit c && ascii_digits r
  end.

Definition script_isdigit (s : string) : bool := nonempty s && ascii_digits s.

Fixpoint decimal (acc : Z) (s : string) : Z :=
  match s with
  | EmptyString => acc
  | String c r => decimal (10 * acc + (Z.of_nat (nat_of_ascii c) - 48)) r
  end.

Definition script_int (s : string) : option Z :=
  if script_isdigit s && (String.length s <=? 4300)%nat then Some (decimal 0 s)
  else None.

(** A string of [n] copies of a character. *)
Fixpoint repeated (c : ascii) (n : nat) : string :=
  match n with
  | O => EmptyString
  | S n' => String c (repeated c n')
  end.

(** The lines of an output, joined by newlines. *)
Definition lines (l : list string) : string := String.concat (String nl EmptyString) l.


(** No namespace: every command exits with a non-zero status. *)
Definition world_missing_namespace : script := [].

(** One controller and no pod. *)
Definition world_lone_controller : script :=
  [Completed "demo   Active   3d"; Completed "web"; Completed ""; Completed "";
   Completed ""].

(** One controller and one pod, with a metrics server that answers for the
    memory only and a pod without container status. *)
Definition world_last_pod : script :=
  [Completed "demo   Active   3d"; Completed "web"; Completed ""; Completed "";
   Completed "web-1";
   CalledProcessError "error: metrics not available yet"; Completed "12Mi";
   CalledProcessError "error: array index out of bounds";
   Completed "2023-11-14T22:13:20Z"].

(** The answers to the two commands of reduce_controller. *)
Definition world_three_replicas : script :=
  [Completed "3"; Completed "deployment.apps/web scaled"].

(** A replica count of 4301 digits, all of them zero or all of them nine. *)
Definition world_long_zero : script :=
  [Completed (repeated "0" 4301); Completed "deployment.apps/web scaled"].

Definition world_long_count : script :=
  [Completed (repeated "9" 4301); Completed "deployment.apps/web scaled"].

Definition world_zero_replicas : script :=
  [Completed "0"; Completed "deployment.apps/web scaled"].

Definition world_no_replica_count : script :=
  [Completed "<none>"; Completed "deployment.apps/web scaled"].

(** Two controllers with a pod each in the first round; the pods are gone in
    the second.  No metrics are available. *)
Definition world_two_rounds : script :=
  [Completed "demo   Active   3d"; Completed (lines ["web"; "db"]); Completed "";
   Completed ""; Completed (lines ["web-1"; "db-1"]);
   CalledProcessError ""; CalledProcessError ""; CalledProcessError "";
   CalledProcessError "";
   CalledProcessError ""; CalledProcessError ""; CalledProcessError "";
   CalledProcessError "";
   Completed "web   1/1   1   1   3d";
   Completed "1"; Completed "deployment.apps/web scaled";
   Completed "demo   Active   3d"; Completed (lines ["web"; "db"]); Completed "";
   Completed ""; Completed ""].

(** The probes of one pod: usage figures, but no restart count and no
    creation time. *)
Definition world_no_restart_count : script :=
  [Completed "5m"; Completed "12Mi";
   CalledProcessError "error: array index out of bounds"; CalledProcessError ""].





(** The user interrupts the listing of the stateful sets in the first
    round. *)
Definition world_interrupted_listing : script :=
  [Completed "demo   Active   3d"; Completed "web"; Raised KeyboardInterrupt].

(** ** The script *)

Section Script.

(** The world outside the script: running a command, drawing a random number,
    reading the clock (in microseconds since the epoch), waiting in
    [time.sleep] for a length that is not negative, which completes or raises
    (the interrupt, or [OverflowError] for a length that is too large), and
    the parser behind [datetime.strptime] with the script's format, which
    gives the seconds since the epoch or fails on a string that does not
    match.  The last two are [s.isdigit()] and [int(s)]; [int] gives the
    integer that it reads or fails, which is its [ValueError]. *)
Variable World : Type.
Variable exec : cmdarg -> bool -> World -> proc_result * World.
Variable rand : World -> nat * World.
Variable utcnow : World -> Z * World.
Variable sleep : Z -> World -> option exn * World.
Variable strptime : string -> option Z.
Variable py_isdigit : string -> bool.
Variable py_int : string -> option Z.

Set Implicit Arguments.

Record state := mkState {
  world : World;
  events : list event;
  logs : list (level * message)
}.

Definition M (A : Type) : Type := state -> result A * state.

Definition ret {A : Type} (a : A) : M A := fun s => (Ret a, s).

Definition raise {A : Type} (e : exn) : M A := fun s => (Raise e, s).

Definition bind {A B : Type} (m : M A) (k : A -> M B) : M B :=
  fun s =>
    match m s with
    | (Ret a, s') => k a s'
    | (Raise e, s') => (Raise e, s')
    end.

Notation "x <- m ;; k" := (bind m (fun x => k))
  (at level 61, m at next level, right associativity).
Notation "m ;; k" := (bind m (fun _ => k))
  (at level 61, right associativity).

Definition emit (ev : event) : M unit :=
  fun s => (Ret tt, mkState (world s) (events s ++ [ev]) (logs s)).

Definition log (l : level) (msg : message) : M unit :=
  fun s => (Ret tt, mkState (world s) (events s) (logs s ++ [(l, msg)])).

Definition enter (f : fn) : M unit := emit (EvCall f).

(** [subprocess.run] with the three ways it can end, recorded in the trace. *)
Definition subprocess_run (cmd : cmdarg) (shell : bool) : M proc_result :=
  fun s =>
    let (r, w) := exec cmd shell (world s) in
    (Ret r, mkState w (events s ++ [EvRun cmd shell r]) (logs s)).

(** One step inside a [try] whose handler is [except Exception]: the step's
    exception goes to the handler, the interrupt passes through. *)
Definition try_step {A B : Type} (m : M A) (handler : exn -> M B) (k : A -> M B) : M B :=
  fun s =>
    match m s with
    | (Ret a, s') => k a s'
    | (Raise e, s') => if is_Exception e then handler e s' else (Raise e, s')
    end.

Definition run_command (cmd : cmdarg) (shell : bool) : M (option string) :=
  r <- subprocess_run cmd shell ;;
  match r with
  | Completed stdout => ret (Some (py_strip stdout))
  | CalledProcessError stderr =>
      log ERROR MsgCommandFailed ;;
      log DEBUG (MsgErrorOutput stderr) ;;
      ret None
  | Raised e => raise e
  end.

Definition get_controllers (namespace : string) : M enumeration :=
  enter FnGetControllers ;;
  log INFO (MsgGettingControllers namespace) ;;
  ns_check <- run_command (namespace_cmd namespace) false ;;
  if negb (truthy ns_check) then
    log ERROR (MsgNamespaceMissing namespace) ;;
    ret EmptyList
  else
    d <- run_command (list_cmd "deployments" namespace) false ;;
    let deployments := or_else d "" in
    t <- run_command (list_cmd "statefulsets" namespace) false ;;
    let statefulsets := or_else t "" in
    r <- run_command (list_cmd "replicasets" namespace) false ;;
    let replicasets := or_else r "" in
    let controllers := combine_controllers [deployments; statefulsets; replicasets] in
    (if is_nil controllers then log WARNING MsgNoControllersInNamespace else ret tt) ;;
    p <- run_command (list_cmd "pods" namespace) false ;;
    let pods_output := or_else p "" in
    let pods := filter nonempty (names_of pods_output) in
    log INFO (MsgFound (length pods) (length controllers)) ;;
    ret (Pair controllers pods).

(** The handler of [get_pod_metrics]: it returns the dictionary as the steps
    before the failure left it. *)
Definition metrics_failed (pod_name : string) (m : metrics) (e : exn) : M metrics :=
  log WARNING (MsgMetricsError pod_name e) ;;
  ret m.

Definition read_clock : M Z :=
  fun s =>
    let (t, w) := utcnow (world s) in
    (Ret t, mkState w (events s ++ [EvNow t]) (logs s)).

Definition get_pod_metrics (pod_name namespace : string) : M metrics :=
  enter FnGetPodMetrics ;;
  let m0 : metrics := [] in
  try_step (run_command (cpu_cmd pod_name namespace) true) (metrics_failed pod_name m0)
    (fun cpu =>
  let m1 := dict_set m0 "cpu" (of_option cpu) in
  try_step (run_command (mem_cmd pod_name namespace) true) (metrics_failed pod_name m1)
    (fun mem =>
  let m2 := dict_set m1 "memory" (of_option mem) in
  try_step (run_command (restart_cmd pod_name namespace) true) (metrics_failed pod_name m2)
    (fun restarts =>
  let m3 := dict_set m2 "restarts" (PStr (or_else restarts "0")) in
  try_step (run_command (age_cmd pod_name namespace) true) (metrics_failed pod_name m3)
    (fun creation_time =>
  match creation_time with
  | Some (String c r) =>
      match strptime (String c r) with
      | None => metrics_failed pod_name m3 ValueError
      | Some creation_dt =>
          now <- read_clock ;;
          ret (dict_set m3 "age" (PSeconds (now - creation_dt * 1000000)))
      end
  | _ => ret m3
  end)))).

(** [random.choice]: the element at a position drawn below the length. *)
Definition random_choice (seq : list string) : M string :=
  match seq with
  | [] => raise IndexError
  | _ =>
      fun s =>
        let (n, w) := rand (world s) in
        let i := (n mod length seq)%nat in
        (Ret (nth i seq ""), mkState w (events s ++ [EvChoice (length seq) i]) (logs s))
  end.

Definition select_controller_for_reduction
    (controllers : list string) (namespace strategy : string)
  : M (option string * option string) :=
  enter FnSelect ;;
  if is_nil controllers then ret (None, None)
  else
    controller <- (if String.eqb strategy "random" then random_choice controllers
                   else random_choice controllers) ;;
    d <- run_command (probe_cmd "deployment" controller namespace) true ;;
    if truthy d then ret (Some controller, Some "deployment")
    else
      t <- run_command (probe_cmd "statefulset" controller namespace) true ;;
      if truthy t then ret (Some controller, Some "statefulset")
      else ret (Some controller, Some "replicaset").

(** [int(s)]: the integer, or [ValueError]. *)
Definition int (s : string) : M Z :=
  match py_int s with
  | Some n => ret n
  | None => raise ValueError
  end.

(** The test [not replicas or not replicas.isdigit() or int(replicas) <= 0]
    calls [int] only when the two tests before it are false; the second
    [int(replicas)], in the line after the test, reads the same string and so
    gives the integer that the first one gave. *)
Definition reduce_controller
    (controller_name : option string) (namespace : string) (controller_type : option string)
  : M bool :=
  enter FnReduce ;;
  match controller_name with
  | Some (String c0 r0) =>
      let name := String c0 r0 in
      let kind := kind_of controller_type in
      replicas <- run_command (replicas_cmd kind name namespace) true ;;
      let digits := or_else replicas "" in
      if negb (truthy replicas) || negb (py_isdigit digits) then
        log WARNING (MsgNoReplicaCount (fmt controller_type) name) ;;
        ret false
      else
        count <- int digits ;;
        if count <=? 0 then
          log WARNING (MsgNoReplicaCount (fmt controller_type) name) ;;
          ret false
        else
          let new_replicas := Z.max 0 (count - 1) in
          log INFO (MsgReducing (fmt controller_type) name digits new_replicas) ;;
          result <- run_command (scale_cmd kind name namespace new_replicas) false ;;
          ret (match result with Some _ => true | None => false end)
  | _ => ret false
  end.

(** The loop of [battle] over the pods: the metrics of each pod are fetched
    and the true ones logged. *)
Fixpoint report_pods (namespace : string) (pods : list string) : M unit :=
  match pods with
  | [] => ret tt
  | pod :: rest =>
      m <- get_pod_metrics pod namespace ;;
      log INFO (MsgPod pod (reported m)) ;;
      report_pods namespace rest
  end.

(** [if max_rounds and round_num >= max_rounds] *)
Definition rounds_reached (max_rounds : option Z) (round_num : Z) : bool :=
  match max_rounds with
  | None => false
  | Some n => negb (n =? 0) && (n <=? round_num)
  end.

(** [time.sleep]: a negative length is refused with [ValueError] before any
    wait; for any other length the world waits, and the call completes or
    raises what the wait raised. *)
Definition time_sleep (secs : Z) : M unit :=
  if secs <? 0 then
    emit (EvSleepFailed secs ValueError) ;;
    raise ValueError
  else
    fun s =>
      match sleep secs (world s) with
      | (None, w) => (Ret tt, mkState w (events s ++ [EvSleep secs]) (logs s))
      | (Some e, w) => (Raise e, mkState w (events s ++ [EvSleepFailed secs e]) (logs s))
      end.

(** The body of the [while True] of [battle], for the round [round_num]:
    [Break] where the source breaks, [Continue] when it reaches the end of the
    body, after which the next round has number [round_num + 1]. *)
Definition battle_round
    (namespace : string) (interval : Z) (strategy : string) (max_rounds : option Z)
    (round_num : Z) : M control :=
  log INFO (MsgRound round_num) ;;
  enumerated <- get_controllers namespace ;;
  match enumerated with
  | EmptyList => raise ValueError
  | Pair controllers pods =>
      if is_nil controllers then
        log INFO MsgNoControllers ;;
        ret Break
      else if is_nil pods then
        log INFO MsgNoPods ;;
        ret Break
      else
        log INFO (MsgRemaining (length controllers)) ;;
        log INFO (MsgCurrentPods (length pods)) ;;
        report_pods namespace pods ;;
        if (length controllers =? 1)%nat && (length pods <=? 1)%nat then
          match pods with
          | pod :: _ => log INFO (MsgWinnerPod pod)
          | [] => log INFO (MsgWinnerController (hd "" controllers))
          end ;;
          ret Break
        else
          selected <- select_controller_for_reduction controllers namespace strategy ;;
          let (target_controller, controller_type) := selected in
          (if truthy target_controller then
             reduce_controller target_controller namespace controller_type ;; ret tt
           else ret tt) ;;
          if rounds_reached max_rounds round_num then
            log INFO (MsgMaxRounds (match max_rounds with Some n => n | None => 0 end)) ;;
            ret Break
          else
            log INFO (MsgNextRound interval) ;;
            time_sleep interval ;;
            ret Continue
  end.

(** The [while True] loop from round [round_num] on.  The source loop has no
    bound of its own: [fuel] bounds the number of rounds that are run, and
    [None] says that the loop was still going when it was used up. *)
Fixpoint battle_loop
    (fuel : nat) (namespace : string) (interval : Z) (strategy : string)
    (max_rounds : option Z) (round_num : Z) (s : state) : option (result unit * state) :=
  match fuel with
  | O => None
  | S fuel' =>
      match battle_round namespace interval strategy max_rounds round_num s with
      | (Ret Break, s') => Some (Ret tt, s')
      | (Ret Continue, s') =>
          battle_loop fuel' namespace interval strategy max_rounds (round_num + 1) s'
      | (Raise e, s') => Some (Raise e, s')
      end
  end.

Definition battle
    (fuel : nat) (namespace : string) (interval : Z) (strategy : string)
    (max_rounds : option Z) (s : state) : option (result unit * state) :=
  match (log INFO (MsgStart namespace) ;; log INFO (MsgStrategy strategy interval)) s with
  | (Ret _, s') => battle_loop fuel namespace interval strategy max_rounds 1 s'
  | (Raise e, s') => Some (Raise e, s')
  end.

(** The handlers around the call of [battle] at the end of the script. *)
Definition handle_battle (r : result unit) : M unit :=
  match r with
  | Ret _ => ret tt
  | Raise KeyboardInterrupt => log INFO MsgStopped
  | Raise e => log ERROR (MsgBattleError e)
  end.

(** The script from the call of [battle] on, with the parsed arguments. *)
Definition main
    (fuel : nat) (namespace : string) (interval : Z) (strategy : string)
    (max_rounds : option Z) (s : state) : option (result unit * state) :=
  match battle fuel namespace interval strategy max_rounds s with
  | None => None
  | Some (r, s') => Some (handle_battle r s')
  end.

(** The state in which a run starts. *)
Definition start (w : World) : state := mkState w [] [].

(** The part of the trace of [s'] that was added since [s]. *)
Definition since (s s' : state) : list event := skipn (length (events s)) (events s').

(** The log lines of [s'] that were written since [s]. *)
Definition logged_since (s s' : state) : list (level * message) :=
  skipn (length (logs s)) (logs s').

(** ** What a computation adds to the trace, and what it raises *)

(** [produces m Q]: whatever the state, [m] appends some events [new] to the
    trace, and [Q] holds of its result and of [new]. *)
Definition produces {A : Type} (m : M A) (Q : result A -> list event -> Prop) : Prop :=
  forall s r s', m s = (r, s') ->
    exists new, events s' = (events s ++ new)%list /\ Q r new.

(** [emits P m]: every event that [m] appends satisfies [P]. *)
Definition emits {A : Type} (P : event -> Prop) (m : M A) : Prop :=
  produces m (fun _ new => Forall P new).

(** An event other than the entry into [reduce_controller]. *)
Definition not_reduce (ev : event) : Prop := is_call FnReduce ev = false.

(** [at_most k m]: [m] enters [reduce_controller] at most [k] times. *)
Definition at_most {A : Type} (k : nat) (m : M A) : Prop :=
  produces m (fun _ new => (reduce_calls new <= k)%nat).

(** [returns R m]: [R] holds of every result of [m]. *)
Definition returns {A : Type} (R : result A -> Prop) (m : M A) : Prop :=
  forall s r s', m s = (r, s') -> R r.

(** Some call of [subprocess.run] in the trace raised [e]. *)
Definition exec_raised (e : exn) (new : list event) : Prop :=
  exists cmd shell, In (EvRun cmd shell (Raised e)) new.







(** The state right after the entry into the function [f] was recorded. *)
Definition entered (f : fn) (s : state) : state :=
  mkState (world s) (events s ++ [EvCall f]) (logs s).

(** The state after one more log line. *)
Definition logged (l : level) (msg : message) (s : state) : state :=
  mkState (world s) (events s) (logs s ++ [(l, msg)]).

(** A scale command in the trace asks for a replica count that is not
    negative. *)
Definition scales_to_nonneg (kind name namespace : string) (ev : event) : Prop :=
  match ev with
  | EvRun c _ _ => is_scale c = true -> exists n, 0 <= n /\ c = scale_cmd kind name namespace n
  | _ => True
  end.

(** An event of the enumeration: not the entry into the selection, into the
    reduction or into the metrics, and not a scale command. *)
Definition enumerating (ev : event) : Prop :=
  is_call FnSelect ev = false /\ is_call FnReduce ev = false /\
  is_call FnGetPodMetrics ev = false /\ is_scale_event ev = false.

(** [says m Q]: whatever the state, [m] appends some lines [new] to the log,
    and [Q] holds of its result and of [new]. *)
Definition says {A : Type} (m : M A) (Q : result A -> list (level * message) -> Prop)
  : Prop :=
  forall s r s', m s = (r, s') ->
    exists new, logs s' = (logs s ++ new)%list /\ Q r new.

(** [writes P m]: every log line that [m] appends satisfies [P]. *)
Definition writes {A : Type} (P : level * message -> Prop) (m : M A) : Prop :=
  says m (fun _ new => Forall P new).

(** An event that is neither the entry into [reduce_controller] nor a scale
    command. *)
Definition quiet (ev : event) : Prop :=
  is_call FnReduce ev = false /\ is_scale_event ev = false.

(** [scales_safely namespace controllers k m]: [m] issues at most [k] scale
    commands, each of them a [safe_scale] one. *)
Definition scales_safely (namespace : string) (controllers : list string) (k : nat)
    {A : Type} (m : M A) : Prop :=
  produces m (fun _ new =>
                Forall (safe_scale namespace controllers) new /\
                (scale_count new <= k)%nat).

Unset Implicit Arguments.

(** ** The trace only grows *)

Lemma since_app (s s' : state) (new : list event) :
  events s' = (events s ++ new)%list -> since s s' = new.
Proof.
  unfold since. intros ->.
  rewrite skipn_app, skipn_all, Nat.sub_diag. reflexivity.
Qed.

Lemma logged_since_app (s s' : state) (new : list (level * message)) :
  logs s' = (logs s ++ new)%list -> logged_since s s' = new.
Proof.
  unfold logged_since. intros ->.
  rewrite skipn_app, skipn_all, Nat.sub_diag. reflexivity.
Qed.

Lemma produces_ret {A : Type} (a : A) (Q : result A -> list event -> Prop) :
  Q (Ret a) [] -> produces (ret a) Q.
Proof.
  intros HQ s r s' H. inversion H; subst. exists []. now rewrite app_nil_r.
Qed.

Lemma produces_raise {A : Type} (e : exn) (Q : result A -> list event -> Prop) :
  Q (Raise e) [] -> produces (raise e) Q.
Proof.
  intros HQ s r s' H. inversion H; subst. exists []. now rewrite app_nil_r.
Qed.

Lemma produces_log (l : level) (msg : message) (Q : result unit -> list event -> Prop) :
  Q (Ret tt) [] -> produces (log l msg) Q.
Proof.
  intros HQ s r s' H. inversion H; subst. exists []. cbn. now rewrite app_nil_r.
Qed.

Lemma produces_emit (ev : event) (Q : result unit -> list event -> Prop) :
  Q (Ret tt) [ev] -> produces (emit ev) Q.
Proof.
  intros HQ s r s' H. inversion H; subst. exists [ev]. now cbn.
Qed.

Lemma produces_bind {A B : Type} (m : M A) (k : A -> M B)
    (Q1 : result A -> list event -> Prop) (Q2 : A -> result B -> list event -> Prop)
    (Q : result B -> list event -> Prop) :
  produces m Q1 ->
  (forall a, produces (k a) (Q2 a)) ->
  (forall e new, Q1 (Raise e) new -> Q (Raise e) new) ->
  (forall a new1 r new2, Q1 (Ret a) new1 -> Q2 a r new2 -> Q r (new1 ++ new2)%list) ->
  produces (bind m k) Q.
Proof.
  intros Hm Hk Hraise Hret s r s' H. unfold bind in H.
  destruct (m s) as [[a | e] s1] eqn:E.
  - destruct (Hm _ _ _ E) as (new1 & E1 & H1).
    destruct (Hk a _ _ _ H) as (new2 & E2 & H2).
    exists (new1 ++ new2)%list. split.
    + now rewrite E2, E1, app_assoc.
    + eauto.
  - inversion H; subst. destruct (Hm _ _ _ E) as (new1 & E1 & H1). eauto.
Qed.

Lemma produces_weaken {A : Type} (m : M A) (Q Q' : result A -> list event -> Prop) :
  produces m Q -> (forall r new, Q r new -> Q' r new) -> produces m Q'.
Proof.
  intros Hm HQ s r s' H. destruct (Hm _ _ _ H) as (new & E & HQn). eauto.
Qed.

Lemma emits_ret {A : Type} (P : event -> Prop) (a : A) : emits P (ret a).
Proof. apply produces_ret. constructor. Qed.

Lemma emits_raise {A : Type} (P : event -> Prop) (e : exn) : emits P (@raise A e).
Proof. apply produces_raise. constructor. Qed.

Lemma emits_log (P : event -> Prop) (l : level) (msg : message) : emits P (log l msg).
Proof. apply produces_log. constructor. Qed.

Lemma emits_enter (P : event -> Prop) (f : fn) : P (EvCall f) -> emits P (enter f).
Proof. intros H. apply produces_emit. now repeat constructor. Qed.

Lemma emits_bind {A B : Type} (P : event -> Prop) (m : M A) (k : A -> M B) :
  emits P m -> (forall a, emits P (k a)) -> emits P (bind m k).
Proof.
  intros Hm Hk.
  apply (produces_bind m k (fun _ new => Forall P new) (fun _ _ new => Forall P new));
    auto.
  intros. now apply Forall_app.
Qed.

Lemma emits_try_step {A B : Type} (P : event -> Prop)
    (m : M A) (handler : exn -> M B) (k : A -> M B) :
  emits P m -> (forall e, emits P (handler e)) -> (forall a, emits P (k a)) ->
  emits P (try_step m handler k).
Proof.
  intros Hm Hh Hk s r s' H. unfold try_step in H.
  destruct (m s) as [[a | e] s1] eqn:E; destruct (Hm _ _ _ E) as (new1 & E1 & H1).
  - destruct (Hk a _ _ _ H) as (new2 & E2 & H2).
    exists (new1 ++ new2)%list. split; [now rewrite E2, E1, app_assoc | now apply Forall_app].
  - destruct (is_Exception e).
    + destruct (Hh e _ _ _ H) as (new2 & E2 & H2).
      exists (new1 ++ new2)%list.
      split; [now rewrite E2, E1, app_assoc | now apply Forall_app].
    + inversion H; subst. eauto.
Qed.

Lemma emits_subprocess_run (P : event -> Prop) (cmd : cmdarg) (shell : bool) :
  (forall r, P (EvRun cmd shell r)) -> emits P (subprocess_run cmd shell).
Proof.
  intros HP s r s' H. unfold subprocess_run in H.
  destruct (exec cmd shell (world s)) as [r0 w]. inversion H; subst.
  exists [EvRun cmd shell r0]. cbn. split; [reflexivity | now repeat constructor].
Qed.

Lemma emits_run_command (P : event -> Prop) (cmd : cmdarg) (shell : bool) :
  (forall r, P (EvRun cmd shell r)) -> emits P (run_command cmd shell).
Proof.
  intros HP. unfold run_command. apply emits_bind.
  - now apply emits_subprocess_run.
  - intros [out | err | e].
    + apply emits_ret.
    + repeat (apply emits_bind; [apply emits_log | intros _]). apply emits_ret.
    + apply emits_raise.
Qed.

Lemma emits_read_clock (P : event -> Prop) :
  (forall t, P (EvNow t)) -> emits P read_clock.
Proof.
  intros HP s r s' H. unfold read_clock in H.
  destruct (utcnow (world s)) as [t w]. inversion H; subst.
  exists [EvNow t]. cbn. split; [reflexivity | now repeat constructor].
Qed.

Lemma emits_random_choice (P : event -> Prop) (seq : list string) :
  (forall n i, P (EvChoice n i)) -> emits P (random_choice seq).
Proof.
  intros HP. destruct seq as [| x seq]; [apply emits_raise |].
  intros s r s' H. unfold random_choice in H.
  destruct (rand (world s)) as [n w]. inversion H; subst.
  eexists [EvChoice _ _]. cbn. split; [reflexivity | now repeat constructor].
Qed.

Lemma emits_time_sleep (P : event -> Prop) (secs : Z) :
  P (EvSleep secs) -> (forall e, P (EvSleepFailed secs e)) -> emits P (time_sleep secs).
Proof.
  intros HP HF. unfold time_sleep. destruct (secs <? 0).
  - apply emits_bind; [| intros _; apply emits_raise].
    apply produces_emit. now repeat constructor.
  - intros s r s' H. destruct (sleep secs (world s)) as [[e |] w]; inversion H; subst.
    + exists [EvSleepFailed secs e]. cbn. split; [reflexivity | now repeat constructor].
    + exists [EvSleep secs]. cbn. split; [reflexivity | now repeat constructor].
Qed.

Lemma emits_int (P : event -> Prop) (digits : string) : emits P (int digits).
Proof. unfold int. destruct (py_int digits); [apply emits_ret | apply emits_raise]. Qed.

(** ** Where [reduce_controller] is entered *)

Lemma get_controllers_not_reduce (namespace : string) :
  emits not_reduce (get_controllers namespace).
Proof.
  unfold get_controllers.
  repeat first
    [ apply emits_ret
    | apply emits_log
    | apply emits_enter; reflexivity
    | apply emits_run_command; intros; reflexivity
    | apply emits_bind; [| intros ?]
    | match goal with
      | |- emits _ (if ?b then _ else _) => destruct b
      end ].
Qed.

Lemma get_pod_metrics_not_reduce (pod_name namespace : string) :
  emits not_reduce (get_pod_metrics pod_name namespace).
Proof.
  unfold get_pod_metrics, metrics_failed.
  repeat first
    [ apply emits_ret
    | apply emits_log
    | apply emits_enter; reflexivity
    | apply emits_run_command; intros; reflexivity
    | apply emits_read_clock; intros; reflexivity
    | apply emits_bind; [| intros ?]
    | apply emits_try_step; [| intros ? | intros ?]
    | match goal with
      | |- emits _ (match ?x with _ => _ end) => destruct x
      end ].
Qed.

Lemma report_pods_not_reduce (namespace : string) (pods : list string) :
  emits not_reduce (report_pods namespace pods).
Proof.
  induction pods as [| pod rest IH]; cbn [report_pods].
  - apply emits_ret.
  - apply emits_bind; [apply get_pod_metrics_not_reduce | intros m].
    apply emits_bind; [apply emits_log | intros _]. exact IH.
Qed.

Lemma select_not_reduce (controllers : list string) (namespace strategy : string) :
  emits not_reduce (select_controller_for_reduction controllers namespace strategy).
Proof.
  unfold select_controller_for_reduction.
  repeat first
    [ apply emits_ret
    | apply emits_enter; reflexivity
    | apply emits_run_command; intros; reflexivity
    | apply emits_random_choice; intros; reflexivity
    | apply emits_bind; [| intros ?]
    | match goal with
      | |- emits _ (if ?b then _ else _) => destruct b
      end ].
Qed.

Lemma reduce_calls_app (l1 l2 : list event) :
  reduce_calls (l1 ++ l2) = (reduce_calls l1 + reduce_calls l2)%nat.
Proof. unfold reduce_calls. now rewrite filter_app, length_app. Qed.

Lemma reduce_calls_not_reduce (l : list event) :
  Forall not_reduce l -> reduce_calls l = 0%nat.
Proof.
  unfold reduce_calls. induction 1 as [| ev l Hev _ IH]; [reflexivity |].
  cbn. unfold not_reduce in Hev. now rewrite Hev.
Qed.

Lemma at_most_quiet {A : Type} (k : nat) (m : M A) : emits not_reduce m -> at_most k m.
Proof.
  intros H. apply (produces_weaken _ _ _ H).
  intros _ new Hnew. rewrite (reduce_calls_not_reduce _ Hnew). lia.
Qed.

Lemma at_most_bind {A B : Type} (k1 k2 k : nat) (m : M A) (f : A -> M B) :
  at_most k1 m -> (forall a, at_most k2 (f a)) -> (k1 + k2 <= k)%nat ->
  at_most k (bind m f).
Proof.
  intros Hm Hf Hk.
  apply (produces_bind m f (fun _ new => (reduce_calls new <= k1)%nat)
           (fun _ _ new => (reduce_calls new <= k2)%nat)); auto.
  - intros; lia.
  - intros a new1 r new2 H1 H2. rewrite reduce_calls_app. lia.
Qed.

Lemma reduce_controller_at_most
    (controller_name : option string) (namespace : string) (controller_type : option string) :
  at_most 1 (reduce_controller controller_name namespace controller_type).
Proof.
  unfold reduce_controller. apply (at_most_bind 1 0).
  - apply produces_emit. cbn. lia.
  - intros _. apply at_most_quiet.
    repeat first
      [ apply emits_ret
      | apply emits_log
      | apply emits_int
      | apply emits_run_command; intros; reflexivity
      | apply emits_bind; [| intros ?]
      | match goal with
        | |- emits _ (if ?b then _ else _) => destruct b
        | |- emits _ (match ?x with _ => _ end) => destruct x
        end ].
  - lia.
Qed.

Lemma battle_round_at_most
    (namespace : string) (interval : Z) (strategy : string) (max_rounds : option Z)
    (round_num : Z) :
  at_most 1 (battle_round namespace interval strategy max_rounds round_num).
Proof.
  unfold battle_round.
  apply (at_most_bind 0 1); [apply at_most_quiet, emits_log | intros _ | lia].
  apply (at_most_bind 0 1);
    [apply at_most_quiet, get_controllers_not_reduce | intros [| controllers pods] | lia].
  { apply at_most_quiet, emits_raise. }
  assert (Hbreak : forall k msg, at_most k (bind (log INFO msg) (fun _ => ret Break))).
  { intros k msg. apply at_most_quiet.
    apply emits_bind; [apply emits_log | intros _; apply emits_ret]. }
  destruct (is_nil controllers); [apply Hbreak |].
  destruct (is_nil pods); [apply Hbreak |].
  apply (at_most_bind 0 1); [apply at_most_quiet, emits_log | intros _ | lia].
  apply (at_most_bind 0 1); [apply at_most_quiet, emits_log | intros _ | lia].
  apply (at_most_bind 0 1);
    [apply at_most_quiet, report_pods_not_reduce | intros _ | lia].
  destruct ((length controllers =? 1)%nat && (length pods <=? 1)%nat).
  { destruct pods; apply Hbreak. }
  apply (at_most_bind 0 1);
    [apply at_most_quiet, select_not_reduce | intros [target controller_type] | lia].
  apply (at_most_bind 1 0); [| intros _; destruct (rounds_reached _ _) | lia].
  2: apply Hbreak.
  2: { apply at_most_quiet.
       apply emits_bind; [apply emits_log | intros _].
       apply emits_bind;
         [apply emits_time_sleep; intros; reflexivity | intros _; apply emits_ret]. }
  destruct (truthy target).
  - apply (at_most_bind 1 0);
      [apply reduce_controller_at_most | intros _; apply at_most_quiet, emits_ret | lia].
  - apply at_most_quiet, emits_ret.
Qed.

(** ** The round limit *)

Lemma returns_bind {A B : Type} (R : result B -> Prop) (m : M A) (k : A -> M B) :
  (forall e, R (Raise e)) -> (forall a, returns R (k a)) -> returns R (bind m k).
Proof.
  intros He Hk s r s' H. unfold bind in H.
  destruct (m s) as [[a | e] s1].
  - exact (Hk a _ _ _ H).
  - inversion H; subst. apply He.
Qed.

Lemma returns_ret {A : Type} (R : result A -> Prop) (a : A) : R (Ret a) -> returns R (ret a).
Proof. intros HR s r s' H. now inversion H; subst. Qed.

Lemma returns_raise {A : Type} (R : result A -> Prop) (e : exn) :
  R (Raise e) -> returns R (@raise A e).
Proof. intros HR s r s' H. now inversion H; subst. Qed.

(** A round goes on to the next one only below the round limit. *)
Lemma battle_round_continue
    (namespace : string) (interval : Z) (strategy : string) (max_rounds : option Z)
    (round_num : Z) (s s' : state) :
  battle_round namespace interval strategy max_rounds round_num s = (Ret Continue, s') ->
  rounds_reached max_rounds round_num = false.
Proof.
  intros H.
  assert (Hr : returns (fun r => r = Ret Continue -> rounds_reached max_rounds round_num = false)
                 (battle_round namespace interval strategy max_rounds round_num)).
  { unfold battle_round.
    repeat first
      [ apply returns_ret; discriminate
      | apply returns_raise; discriminate
      | apply returns_bind; [discriminate | intros ?]
      | match goal with
        | |- returns _ (match ?x with EmptyList => _ | Pair _ _ => _ end) => destruct x
        | |- returns _ (let (_, _) := ?x in _) => destruct x
        | |- returns _ (if rounds_reached _ _ then _ else _) =>
            destruct (rounds_reached max_rounds round_num) eqn:?
        | |- returns _ (if ?b then _ else _) => destruct b
        end
      | apply returns_ret; intros _; reflexivity ]. }
  exact (Hr _ _ _ H eq_refl).
Qed.

(** With a round limit of at least one, the loop started in a round up to the
    limit ends within the rounds that are left, and enters
    [reduce_controller] at most once in each of them. *)
Lemma battle_loop_bounded
    (namespace : string) (interval : Z) (strategy : string) (N : Z) (fuel : nat) :
  forall (round_num : Z) (s : state),
    1 <= round_num <= N ->
    (forall r s',
        battle_loop fuel namespace interval strategy (Some N) round_num s = Some (r, s') ->
        exists new, events s' = (events s ++ new)%list /\
                    Z.of_nat (reduce_calls new) <= N - round_num + 1) /\
    (N - round_num + 1 <= Z.of_nat fuel ->
     battle_loop fuel namespace interval strategy (Some N) round_num s <> None).
Proof.
  induction fuel as [| fuel IH]; intros round_num s Hround.
  - split; [discriminate | lia].
  - cbn [battle_loop].
    destruct (battle_round namespace interval strategy (Some N) round_num s)
      as [[[|] | e] s1] eqn:E;
      destruct (battle_round_at_most _ _ _ _ _ _ _ _ E) as (new1 & E1 & H1).
    + split; [| discriminate].
      intros r s' H. inversion H; subst. exists new1. split; [assumption | lia].
    + pose proof (battle_round_continue _ _ _ _ _ _ _ E) as Hlim.
      cbn in Hlim.
      assert (Hlt : round_num < N).
      { destruct (N =? 0) eqn:E0; [lia |]. cbn in Hlim. lia. }
      destruct (IH (round_num + 1) s1 ltac:(lia)) as [Hcount Hend].
      split.
      * intros r s' H. destruct (Hcount _ _ H) as (new2 & E2 & H2).
        exists (new1 ++ new2)%list. split; [now rewrite E2, E1, app_assoc |].
        rewrite reduce_calls_app. lia.
      * intros Hfuel. apply Hend. lia.
    + split; [| discriminate].
      intros r s' H. inversion H; subst. exists new1. split; [assumption | lia].
Qed.

(** ** Where an exception can come from *)








(** What [run_command] does with each way the command can end. *)
Lemma run_command_cases (cmd : cmdarg) (shell : bool) (s : state) :
  match exec cmd shell (world s) with
  | (Completed stdout, w) =>
      run_command cmd shell s =
      (Ret (Some (py_strip stdout)),
       mkState w (events s ++ [EvRun cmd shell (Completed stdout)]) (logs s))
  | (CalledProcessError stderr, w) =>
      run_command cmd shell s =
      (Ret None,
       mkState w (events s ++ [EvRun cmd shell (CalledProcessError stderr)])
         (logs s ++ [(ERROR, MsgCommandFailed); (DEBUG, MsgErrorOutput stderr)]))
  | (Raised e, w) =>
      run_command cmd shell s =
      (Raise e, mkState w (events s ++ [EvRun cmd shell (Raised e)]) (logs s))
  end.
Proof.
  unfold run_command, bind, subprocess_run.
  destruct (exec cmd shell (world s)) as [[stdout | stderr | e] w]; cbn;
    try reflexivity.
  now rewrite <- app_assoc.
Qed.

(** [run_command] appends the one event of its command; a result without data
    comes from a probe without data, and an exception from the command. *)
Lemma run_command_event (cmd : cmdarg) (shell : bool) (s : state)
    (r : result (option string)) (s' : state) :
  run_command cmd shell s = (r, s') ->
  exists pr, events s' = (events s ++ [EvRun cmd shell pr])%list /\
             match r with
             | Ret o => if truthy o then resolves pr = true else no_data pr = true
             | Raise e => pr = Raised e
             end.
Proof.
  intros H. pose proof (run_command_cases cmd shell s) as Hc.
  destruct (exec cmd shell (world s)) as [[stdout | stderr | e] w];
    rewrite Hc in H; inversion H; subst; cbn [events];
    eexists; (split; [reflexivity |]); cbn; try reflexivity.
  destruct (nonempty (py_strip stdout)); reflexivity.
Qed.







Lemma bind_inv {A B : Type} (m : M A) (k : A -> M B) (s : state) (r : result B) (s' : state) :
  bind m k s = (r, s') ->
  (exists a s1, m s = (Ret a, s1) /\ k a s1 = (r, s')) \/
  (exists e, m s = (Raise e, s') /\ r = Raise e).
Proof.
  unfold bind. destruct (m s) as [[a | e] s1]; intros H.
  - left. eauto.
  - right. inversion H; subst. eauto.
Qed.

Lemma returns_log (R : result unit -> Prop) (l : level) (msg : message) :
  R (Ret tt) -> returns R (log l msg).
Proof. intros HR s r s' H. now inversion H; subst. Qed.


(** ** What [reduce_controller] does with the replica count *)

Lemma truthy_data_resolves (pr : proc_result) : truthy (data pr) = resolves pr.
Proof. now destruct pr. Qed.

Lemma or_else_data (pr : proc_result) : or_else (data pr) "" = output pr.
Proof. destruct pr as [out | err | e]; try reflexivity. cbn. now destruct (py_strip out). Qed.

(** What [run_command] gives, whichever way its command ends. *)
Lemma run_command_outcome (cmd : cmdarg) (shell : bool) (s : state)
    (r : result (option string)) (s' : state) :
  run_command cmd shell s = (r, s') ->
  exists pr, events s' = (events s ++ [EvRun cmd shell pr])%list /\
             r = match pr with
                 | Raised e => Raise e
                 | _ => Ret (data pr)
                 end.
Proof.
  intros H. pose proof (run_command_cases cmd shell s) as Hc.
  destruct (exec cmd shell (world s)) as [[stdout | stderr | e] w];
    rewrite Hc in H; inversion H; subst; cbn [events];
    eexists; (split; [reflexivity |]); reflexivity.
Qed.

(** [int] leaves the state as it is. *)
Lemma int_outcome (digits : string) (s : state) (r : result Z) (s' : state) :
  int digits s = (r, s') ->
  s' = s /\
  r = match py_int digits with
      | Some count => Ret count
      | None => Raise ValueError
      end.
Proof. unfold int. destruct (py_int digits); intros H; now inversion H. Qed.

(** The trace and the result of a reduction, case by case. *)
Lemma reduce_controller_trace
    (controller_name : option string) (namespace : string) (controller_type : option string)
    (s : state) (r : result bool) (s' : state) :
  reduce_controller controller_name namespace controller_type s = (r, s') ->
  let name := or_else controller_name "" in
  let kind := kind_of controller_type in
  (truthy controller_name = false /\ r = Ret false /\ since s s' = [EvCall FnReduce]) \/
  (truthy controller_name = true /\
   exists prr,
     let read := EvRun (replicas_cmd kind name namespace) true prr in
     match prr with
     | Raised e => r = Raise e /\ since s s' = [EvCall FnReduce; read]
     | _ =>
         let digits := output prr in
         if negb (resolves prr) || negb (py_isdigit digits)
         then r = Ret false /\ since s s' = [EvCall FnReduce; read]
         else
           match py_int digits with
           | None => r = Raise ValueError /\ since s s' = [EvCall FnReduce; read]
           | Some count =>
               if count <=? 0
               then r = Ret false /\ since s s' = [EvCall FnReduce; read]
               else
                 exists prs,
                   since s s' =
                     [EvCall FnReduce; read;
                      EvRun (scale_cmd kind name namespace (count - 1)) false prs] /\
                   r = match prs with
                       | Completed _ => Ret true
                       | CalledProcessError _ => Ret false
                       | Raised e => Raise e
                       end
           end
     end).
Proof.
  intros H name kind. unfold reduce_controller in H.
  apply bind_inv in H as [(u & s0 & E0 & H) | (e & E0 & _)]; [| discriminate].
  inversion E0; subst u s0; clear E0.
  destruct controller_name as [[| c0 r0] |];
    try (left; inversion H; subst; split; [reflexivity |]; split; [reflexivity |];
         now apply since_app).
  right. split; [reflexivity |]. fold kind in H. cbn [or_else] in name. fold name in H.
  apply bind_inv in H as [(replicas & s1 & E1 & H) | (e & E1 & ->)];
    destruct (run_command_outcome _ _ _ _ _ E1) as (prr & Ev1 & Hr1);
    cbn [events] in Ev1; exists prr; cbv zeta.
  - assert (Hrep : replicas = data prr /\ forall e, prr <> Raised e)
      by (destruct prr; inversion Hr1; subst; split; congruence).
    destruct Hrep as [-> Hnr].
    rewrite truthy_data_resolves, or_else_data in H.
    assert (Hread : forall sx,
               events sx = events s1 ->
               since s sx = [EvCall FnReduce; EvRun (replicas_cmd kind name namespace) true prr]).
    { intros sx Hx. apply since_app. rewrite Hx, Ev1. now rewrite <- app_assoc. }
    assert (Hcase :
              if negb (resolves prr) || negb (py_isdigit (output prr))
              then r = Ret false /\
                   since s s' =
                     [EvCall FnReduce; EvRun (replicas_cmd kind name namespace) true prr]
              else
                match py_int (output prr) with
                | None =>
                    r = Raise ValueError /\
                    since s s' =
                      [EvCall FnReduce; EvRun (replicas_cmd kind name namespace) true prr]
                | Some count =>
                    if count <=? 0
                    then r = Ret false /\
                         since s s' =
                           [EvCall FnReduce;
                            EvRun (replicas_cmd kind name namespace) true prr]
                    else
                      exists prs,
                        since s s' =
                          [EvCall FnReduce;
                           EvRun (replicas_cmd kind name namespace) true prr;
                           EvRun (scale_cmd kind name namespace (count - 1)) false prs] /\
                        r = match prs with
                            | Completed _ => Ret true
                            | CalledProcessError _ => Ret false
                            | Raised e => Raise e
                            end
                end).
    { destruct (negb (resolves prr) || negb (py_isdigit (output prr))) eqn:Econd.
      - inversion H; subst. split; [reflexivity |]. now apply Hread.
      - apply bind_inv in H as [(count & sx & Ex & H) | (e & Ex & ->)];
          apply int_outcome in Ex as [-> Ex];
          destruct (py_int (output prr)) as [count' |]; try discriminate Ex.
        + injection Ex as ->.
          destruct (count' <=? 0) eqn:Epos.
          * inversion H; subst. split; [reflexivity |]. now apply Hread.
          * apply Z.leb_gt in Epos.
            replace (Z.max 0 (count' - 1)) with (count' - 1) in H by lia.
            apply bind_inv in H as [(u & sl & El & H) | (e & El & _)]; [| discriminate].
            inversion El; subst u sl; clear El.
            apply bind_inv in H as [(result & s2 & E2 & H) | (e & E2 & ->)];
              destruct (run_command_outcome _ _ _ _ _ E2) as (prs & Ev2 & Hr2);
              cbn [events] in Ev2; exists prs.
            -- inversion H; subst. split.
               ++ apply since_app. rewrite Ev2, Ev1. now rewrite <- !app_assoc.
               ++ destruct prs; inversion Hr2; subst; reflexivity.
            -- split.
               ++ apply since_app. rewrite Ev2, Ev1. now rewrite <- !app_assoc.
               ++ destruct prs; congruence.
        + injection Ex as ->. split; [reflexivity |]. now apply Hread. }
    destruct prr as [o1 | e1 | e1]; try exact Hcase. now destruct (Hnr e1).
  - destruct prr; try congruence. split; [congruence |].
    apply since_app. rewrite Ev1. now rewrite <- app_assoc.
Qed.

(** [reduce_controller] without a usable replica count: a warning and [False],
    nothing else. *)
Lemma reduce_controller_refuses
    (c0 : ascii) (r0 namespace : string) (controller_type : option string)
    (s : state) (replicas : option string) (s1 : state) :
  let name := String c0 r0 in
  run_command (replicas_cmd (kind_of controller_type) name namespace) true
    (entered FnReduce s) = (Ret replicas, s1) ->
  truthy replicas = false \/
  py_isdigit (or_else replicas "") = false \/
  (exists count, py_int (or_else replicas "") = Some count /\ count <= 0) ->
  reduce_controller (Some name) namespace controller_type s =
  (Ret false, logged WARNING (MsgNoReplicaCount (fmt controller_type) name) s1).
Proof.
  intros name Hread Hbad. subst name. unfold entered in Hread.
  unfold reduce_controller, bind. cbn [enter emit].
  rewrite Hread.
  destruct (negb (truthy replicas) || negb (py_isdigit (or_else replicas ""))) eqn:Econd;
    [reflexivity |].
  apply orb_false_elim in Econd as [Et Ed].
  apply negb_false_iff in Et. apply negb_false_iff in Ed.
  destruct Hbad as [H | [H | (count & Hint & Hle)]]; try congruence.
  unfold int. rewrite Hint. cbn [ret].
  apply Z.leb_le in Hle. now rewrite Hle.
Qed.

(** [reduce_controller] with a replica count that [str.isdigit] accepts and
    [int] refuses: [ValueError], and nothing else. *)
Lemma reduce_controller_raises
    (c0 : ascii) (r0 namespace : string) (controller_type : option string)
    (s : state) (digits : string) (s1 : state) :
  let name := String c0 r0 in
  run_command (replicas_cmd (kind_of controller_type) name namespace) true
    (entered FnReduce s) = (Ret (Some digits), s1) ->
  digits <> "" ->
  py_isdigit digits = true ->
  py_int digits = None ->
  reduce_controller (Some name) namespace controller_type s = (Raise ValueError, s1).
Proof.
  intros name Hread Hne Hd Hint. subst name. unfold entered in Hread.
  unfold reduce_controller, bind. cbn [enter emit].
  rewrite Hread.
  assert (Ht : truthy (Some digits) = true) by (now destruct digits).
  assert (Ho : or_else (Some digits) "" = digits) by (now destruct digits).
  rewrite Ht, Ho, Hd. cbn [negb orb]. unfold int. now rewrite Hint.
Qed.

(** [reduce_controller] with a positive replica count: the log line and the
    scale command for one replica less. *)
Lemma reduce_controller_scales
    (c0 : ascii) (r0 namespace : string) (controller_type : option string)
    (s : state) (digits : string) (s1 : state) (count : Z) :
  let name := String c0 r0 in
  let kind := kind_of controller_type in
  let new_replicas := Z.max 0 (count - 1) in
  run_command (replicas_cmd kind name namespace) true (entered FnReduce s)
  = (Ret (Some digits), s1) ->
  digits <> "" ->
  py_isdigit digits = true ->
  py_int digits = Some count ->
  0 < count ->
  reduce_controller (Some name) namespace controller_type s =
  bind (run_command (scale_cmd kind name namespace new_replicas) false)
    (fun result => ret (match result with Some _ => true | None => false end))
    (mkState (world s1) (events s1)
       (logs s1 ++ [(INFO, MsgReducing (fmt controller_type) name digits new_replicas)])).
Proof.
  intros name kind new_replicas Hread Hne Hd Hint Hpos. subst name kind new_replicas.
  unfold entered in Hread. unfold reduce_controller, bind. cbn [enter emit].
  rewrite Hread.
  assert (Ht : truthy (Some digits) = true) by (now destruct digits).
  assert (Ho : or_else (Some digits) "" = digits) by (now destruct digits).
  rewrite Ht, Ho, Hd. cbn [negb orb]. unfold int. rewrite Hint. cbn [ret].
  destruct (count <=? 0) eqn:E; [apply Z.leb_le in E; lia |].
  reflexivity.
Qed.

(** Every scale command of [reduce_controller] asks for a count that is not
    negative. *)
Lemma reduce_controller_scale_events
    (controller_name : option string) (namespace : string) (controller_type : option string) :
  emits (scales_to_nonneg (kind_of controller_type) (or_else controller_name "") namespace)
    (reduce_controller controller_name namespace controller_type).
Proof.
  unfold reduce_controller.
  apply emits_bind; [apply emits_enter; exact I | intros _].
  destruct controller_name as [[| c0 r0] |]; try apply emits_ret.
  cbn [or_else].
  apply emits_bind; [apply emits_run_command; intros r; cbn; discriminate | intros replicas].
  match goal with |- emits _ (if ?b then _ else _) => destruct b end.
  - apply emits_bind; [apply emits_log | intros _; apply emits_ret].
  - apply emits_bind; [apply emits_int | intros count].
    destruct (count <=? 0).
    + apply emits_bind; [apply emits_log | intros _; apply emits_ret].
    + apply emits_bind; [apply emits_log | intros _].
      apply emits_bind; [| intros result; apply emits_ret].
      apply emits_run_command. intros r _. eexists. split; [| reflexivity]. lia.
Qed.

Lemma since_entered (f : fn) (s s1 s' : state) (new : list event) :
  events s1 = (events (entered f s) ++ new)%list ->
  events s' = events s1 ->
  since s s' = EvCall f :: new.
Proof.
  intros E1 E2. apply since_app. rewrite E2, E1. cbn. now rewrite <- app_assoc.
Qed.

(** ** The claims about [reduce_controller] *)

(** C3, as amended.  For a replica count that [str.isdigit] accepts: when
    [int] reads it as a positive integer r, [reduce_controller] issues
    exactly one scale command, for max(0, r-1) = r-1 replicas, and returns
    whether that command completed; when [int] reads it as zero (or less) it
    issues none and returns [False]; when [int] refuses it, it issues none
    and raises [ValueError].  Whatever the controller and whatever was read,
    a scale command that [reduce_controller] issues asks for a count that is
    not negative. *)
Theorem C3_reduce_requests_one_less
    (c0 : ascii) (r0 namespace : string) (controller_type : option string) (s : state) :
  let name := String c0 r0 in
  let kind := kind_of controller_type in
  (forall digits s1,
      run_command (replicas_cmd kind name namespace) true (entered FnReduce s)
      = (Ret (Some digits), s1) ->
      digits <> "" ->
      py_isdigit digits = true ->
      match py_int digits with
      | Some count =>
          (0 < count ->
           exists pr s',
             reduce_controller (Some name) namespace controller_type s
             = (match pr with
                | Completed _ => Ret true
                | CalledProcessError _ => Ret false
                | Raised e => Raise e
                end, s') /\
             since s1 s' =
               [EvRun (scale_cmd kind name namespace (Z.max 0 (count - 1))) false pr] /\
             Z.max 0 (count - 1) = count - 1) /\
          (count <= 0 ->
           exists s',
             reduce_controller (Some name) namespace controller_type s = (Ret false, s') /\
             since s1 s' = [])
      | None =>
          reduce_controller (Some name) namespace controller_type s
          = (Raise ValueError, s1)
      end) /\
  (forall controller_name r s',
      reduce_controller controller_name namespace controller_type s = (r, s') ->
      Forall (scales_to_nonneg kind (or_else controller_name "") namespace) (since s s')).
Proof.
  intros name kind. split.
  - intros digits s1 Hread Hne Hd.
    destruct (py_int digits) as [count |] eqn:Hint.
    + split.
      * intros Hpos.
        pose proof (reduce_controller_scales c0 r0 namespace controller_type s digits s1
                      count Hread Hne Hd Hint Hpos) as Heq.
        cbv zeta in Heq. fold name kind in Heq. unfold bind in Heq.
        match type of Heq with
        | context [run_command ?c ?sh ?st] =>
            destruct (run_command c sh st) as [[o | e] s2] eqn:E;
            destruct (run_command_outcome _ _ _ _ _ E) as (pr & Ev & Hr)
        end.
        -- exists pr, s2. split; [| split; [now apply since_app | lia]].
           rewrite Heq. destruct pr; inversion Hr; subst; reflexivity.
        -- exists pr, s2. split; [| split; [now apply since_app | lia]].
           rewrite Heq. destruct pr; inversion Hr; subst; reflexivity.
      * intros Hle.
        pose proof (reduce_controller_refuses c0 r0 namespace controller_type s
                      (Some digits) s1 Hread) as Heq.
        cbv zeta in Heq. fold name in Heq.
        assert (Ho : or_else (Some digits) "" = digits) by (now destruct digits).
        rewrite Ho in Heq. eexists. split; [apply Heq; right; right; eauto |].
        apply since_app. cbn. now rewrite app_nil_r.
    + exact (reduce_controller_raises c0 r0 namespace controller_type s digits s1
               Hread Hne Hd Hint).
  - intros controller_name r s' H.
    destruct (reduce_controller_scale_events controller_name namespace controller_type _ _ _ H)
      as (new & Ev & Hnew).
    now rewrite (since_app _ _ _ Ev).
Qed.

(** C4, as amended.  Whatever the controller, its kind and the namespace:
    when the replica count that [reduce_controller] reads is absent ([None]
    or empty), is not accepted by [str.isdigit], or is read by [int] as an
    integer that is at most zero, the call returns [False], and the only
    command in its trace is the read of the replica count, so that no scale
    command is issued.  When [str.isdigit] accepts the count and [int]
    refuses it, the trace is the same, without a scale command, but the call
    raises [ValueError] instead of returning. *)
Theorem C4_reduce_refuses_without_positive_count
    (controller_name : option string) (namespace : string) (controller_type : option string)
    (s : state) (replicas : option string) (s1 : state) :
  let name := or_else controller_name "" in
  let read := replicas_cmd (kind_of controller_type) name namespace in
  run_command read true (entered FnReduce s) = (Ret replicas, s1) ->
  (truthy replicas = false \/
   py_isdigit (or_else replicas "") = false \/
   (exists count, py_int (or_else replicas "") = Some count /\ count <= 0) ->
   exists s',
     reduce_controller controller_name namespace controller_type s = (Ret false, s') /\
     (forall c sh pr, In (EvRun c sh pr) (since s s') -> c = read /\ sh = true) /\
     Forall (fun ev => is_scale_event ev = false) (since s s')) /\
  (truthy controller_name = true ->
   truthy replicas = true ->
   py_isdigit (or_else replicas "") = true ->
   py_int (or_else replicas "") = None ->
   exists s',
     reduce_controller controller_name namespace controller_type s
     = (Raise ValueError, s') /\
     (forall c sh pr, In (EvRun c sh pr) (since s s') -> c = read /\ sh = true) /\
     Forall (fun ev => is_scale_event ev = false) (since s s')).
Proof.
  intros name read Hread. split.
  - intros Hbad.
    assert (Hnone : forall s', s' = entered FnReduce s ->
              (forall c sh pr, In (EvRun c sh pr) (since s s') -> c = read /\ sh = true) /\
              Forall (fun ev => is_scale_event ev = false) (since s s')).
    { intros s' ->. rewrite (since_app s (entered FnReduce s) [EvCall FnReduce] eq_refl).
      split; [| now repeat constructor].
      intros c sh pr [H | []]. discriminate. }
    destruct controller_name as [[| c0 r0] |];
      try (exists (entered FnReduce s); split; [reflexivity | now apply Hnone]).
    subst name read. cbn [or_else] in *.
    destruct (run_command_event _ _ _ _ _ Hread) as (pr & Ev & _).
    eexists. split; [exact (reduce_controller_refuses _ _ _ _ _ _ _ Hread Hbad) |].
    rewrite (since_entered FnReduce s s1 (logged WARNING _ s1) _ Ev eq_refl).
    split.
    + intros c sh pr' [H | [H | []]]; [discriminate | now inversion H].
    + now repeat constructor.
  - intros Hname Ht Hd Hint.
    destruct controller_name as [[| c0 r0] |]; try discriminate Hname.
    destruct replicas as [digits |]; [| discriminate Ht].
    assert (Hne : digits <> "") by (intros ->; discriminate Ht).
    assert (Ho : or_else (Some digits) "" = digits) by (now destruct digits).
    rewrite Ho in Hd, Hint.
    subst name read. cbn [or_else] in *.
    destruct (run_command_event _ _ _ _ _ Hread) as (pr & Ev & _).
    exists s1. split; [exact (reduce_controller_raises _ _ _ _ _ _ _ Hread Hne Hd Hint) |].
    rewrite (since_entered FnReduce s s1 s1 _ Ev eq_refl).
    split.
    + intros c sh pr' [H | [H | []]]; [discriminate | now inversion H].
    + now repeat constructor.
Qed.

(** ** The claims about the rounds of [battle] *)

Lemma get_controllers_enumerating (namespace : string) :
  emits enumerating (get_controllers namespace).
Proof.
  unfold get_controllers.
  repeat first
    [ apply emits_ret
    | apply emits_log
    | apply emits_enter; repeat split; reflexivity
    | apply emits_run_command; intros; repeat split; reflexivity
    | apply emits_bind; [| intros ?]
    | match goal with
      | |- emits _ (if ?b then _ else _) => destruct b
      end ].
Qed.

(** C2.  When the namespace probe at the start of a round gives no data (a
    non-zero exit status or an empty output), the loop ends in that very
    round, whatever the fuel: [get_controllers] logs the error and returns its
    bare empty list, whose unpacking raises [ValueError]; the trace of the
    round is the probe alone, with no scale command, and the handler around
    [battle] logs the error and ends the run normally. *)
Theorem C2_missing_namespace_ends_the_run
    (namespace : string) (interval : Z) (strategy : string) (max_rounds : option Z)
    (round_num : Z) (fuel : nat) (s : state) (pr : proc_result) (w : World) :
  exec (namespace_cmd namespace) false (world s) = (pr, w) ->
  no_data pr = true ->
  exists s',
    battle_loop (S fuel) namespace interval strategy max_rounds round_num s
    = Some (Raise ValueError, s') /\
    since s s' = [EvCall FnGetControllers; EvRun (namespace_cmd namespace) false pr] /\
    Forall (fun ev => is_scale_event ev = false) (since s s') /\
    In (ERROR, MsgNamespaceMissing namespace) (logged_since s s') /\
    handle_battle (Raise ValueError) s' = (Ret tt, logged ERROR (MsgBattleError ValueError) s').
Proof.
  intros Hexec Hpr. cbn [battle_loop].
  unfold battle_round, get_controllers, bind. cbn [log enter emit world events logs].
  match goal with
  | |- context [run_command ?c ?sh ?st] => pose proof (run_command_cases c sh st) as Hc
  end.
  cbn [world events logs] in Hc. rewrite Hexec in Hc.
  destruct pr as [stdout | stderr | e]; cbn [no_data] in Hpr; try discriminate;
    rewrite Hc; clear Hc.
  - apply negb_true_iff in Hpr. cbn [truthy]. rewrite Hpr. cbn.
    eexists. split; [reflexivity |].
    split; [apply since_app; cbn; now rewrite <- app_assoc |].
    split; [erewrite since_app by (cbn; now rewrite <- app_assoc); now repeat constructor |].
    split; [| reflexivity].
    erewrite logged_since_app by (cbn; rewrite <- !app_assoc; reflexivity).
    cbn. tauto.
  - cbn.
    eexists. split; [reflexivity |].
    split; [apply since_app; cbn; now rewrite <- app_assoc |].
    split; [erewrite since_app by (cbn; now rewrite <- app_assoc); now repeat constructor |].
    split; [| reflexivity].
    erewrite logged_since_app by (cbn; rewrite <- !app_assoc; reflexivity).
    cbn. tauto.
Qed.

(** C5.  In a round whose enumeration gives an empty list of controllers or an
    empty list of pods, the loop ends in that round, whatever the fuel, in the
    very state of the world and of the trace that the enumeration left: the
    round has fetched no metrics, selected nothing, entered no reduction and
    issued no scale command. *)
Theorem C5_empty_enumeration_ends_the_round
    (namespace : string) (interval : Z) (strategy : string) (max_rounds : option Z)
    (round_num : Z) (fuel : nat) (s : state) (controllers pods : list string) (s1 : state) :
  get_controllers namespace (logged INFO (MsgRound round_num) s)
  = (Ret (Pair controllers pods), s1) ->
  controllers = [] \/ pods = [] ->
  exists s',
    battle_loop (S fuel) namespace interval strategy max_rounds round_num s
    = Some (Ret tt, s') /\
    world s' = world s1 /\
    events s' = events s1 /\
    Forall enumerating (since s s').
Proof.
  intros Henum Hempty.
  destruct (get_controllers_enumerating namespace _ _ _ Henum) as (new & Ev & Hnew).
  cbn [battle_loop]. unfold battle_round. unfold bind at 1. cbn [log].
  change (mkState (world s) (events s) (logs s ++ [(INFO, MsgRound round_num)]))
    with (logged INFO (MsgRound round_num) s).
  unfold bind at 1. rewrite Henum.
  assert (Hs : forall msg, Forall enumerating (since s (logged INFO msg s1))).
  { intros msg. erewrite since_app by exact Ev. exact Hnew. }
  destruct controllers as [| c controllers].
  - cbn. eexists. split; [reflexivity |]. repeat split. apply Hs.
  - destruct Hempty as [H | ->]; [discriminate |].
    cbn. eexists. split; [reflexivity |]. repeat split. apply Hs.
Qed.

(** C6, as amended.  With a round limit N of at least one, [battle] enters
    [reduce_controller] at most N times, and it ends within N rounds. *)
Theorem C6_round_limit_bounds_reductions
    (namespace : string) (interval : Z) (strategy : string) (N : Z) (fuel : nat) (s : state) :
  1 <= N ->
  (forall r s',
      battle fuel namespace interval strategy (Some N) s = Some (r, s') ->
      Z.of_nat (reduce_calls (since s s')) <= N) /\
  (N <= Z.of_nat fuel ->
   exists r s', battle fuel namespace interval strategy (Some N) s = Some (r, s')).
Proof.
  intros HN. unfold battle, bind. cbn [log world events logs].
  match goal with
  | |- context [battle_loop _ _ _ _ _ _ ?st] =>
      destruct (battle_loop_bounded namespace interval strategy N fuel 1 st ltac:(lia))
        as [Hcount Hend]
  end.
  split.
  - intros r s' H. destruct (Hcount _ _ H) as (new & Ev & Hnew). cbn [events] in Ev.
    rewrite (since_app _ _ _ Ev). lia.
  - intros Hfuel.
    match goal with
    | |- context [battle_loop ?f ?a ?b ?c ?d ?e ?st] =>
        destruct (battle_loop f a b c d e st) as [[r s'] |] eqn:E
    end.
    + eauto.
    + exfalso. apply Hend; [lia | reflexivity].
Qed.

(** ** The claim about the enumeration *)

Lemma run_command_ret (cmd : cmdarg) (shell : bool) (s : state)
    (o : option string) (s' : state) :
  run_command cmd shell s = (Ret o, s') ->
  exists pr, events s' = (events s ++ [EvRun cmd shell pr])%list /\
             or_else o "" = output pr /\
             truthy o = resolves pr.
Proof.
  intros H. pose proof (run_command_cases cmd shell s) as Hc.
  destruct (exec cmd shell (world s)) as [[stdout | stderr | e] w];
    rewrite Hc in H; inversion H; subst; cbn [events];
    eexists; (split; [reflexivity |]); cbn; auto.
  now destruct (py_strip stdout).
Qed.

Lemma combine_controllers_flat_map (outputs : list string) :
  combine_controllers outputs =
  flat_map (fun o => if nonempty o then names_of o else []) outputs.
Proof.
  unfold combine_controllers.
  assert (H : forall acc,
             fold_left
               (fun controllers output =>
                  if nonempty output then (controllers ++ names_of output)%list
                  else controllers) outputs acc =
             (acc ++ flat_map (fun o => if nonempty o then names_of o else []) outputs)%list).
  { induction outputs as [| o rest IH]; intros acc; cbn.
    - now rewrite app_nil_r.
    - rewrite IH. destruct (nonempty o); [now rewrite <- app_assoc | reflexivity]. }
  apply H.
Qed.

(** A sequence that returns: its first part returned too. *)
Lemma bind_ret_inv {A B : Type} (m : M A) (k : A -> M B) (s : state) (b : B) (s' : state) :
  bind m k s = (Ret b, s') ->
  exists a s1, m s = (Ret a, s1) /\ k a s1 = (Ret b, s').
Proof.
  intros H. apply bind_inv in H as [Hret | (e & _ & He)]; [exact Hret | discriminate].
Qed.

(** The commands of an enumeration that returns its pair, and how the two
    lists come out of their outputs. *)
Lemma get_controllers_result (namespace : string) (s : state)
    (controllers pods : list string) (s' : state) :
  get_controllers namespace s = (Ret (Pair controllers pods), s') ->
  exists prn prd prt prr prp,
    since s s' =
      [EvCall FnGetControllers;
       EvRun (namespace_cmd namespace) false prn;
       EvRun (list_cmd "deployments" namespace) false prd;
       EvRun (list_cmd "statefulsets" namespace) false prt;
       EvRun (list_cmd "replicasets" namespace) false prr;
       EvRun (list_cmd "pods" namespace) false prp] /\
    resolves prn = true /\
    controllers = combine_controllers [output prd; output prt; output prr] /\
    pods = filter nonempty (names_of (output prp)).
Proof.
  intros H. unfold get_controllers in H.
  apply bind_ret_inv in H as (u0 & s0 & E0 & H). inversion E0; subst u0 s0; clear E0.
  apply bind_ret_inv in H as (u0 & s0 & E0 & H). inversion E0; subst u0 s0; clear E0.
  apply bind_ret_inv in H as (ns_check & sn & En & H).
  destruct (run_command_ret _ _ _ _ _ En) as (prn & Evn & _ & Hn). cbn [events] in Evn.
  destruct (truthy ns_check); cbn [negb] in H; [| inversion H].
  apply bind_ret_inv in H as (d & sd & Ed & H). destruct (run_command_ret _ _ _ _ _ Ed) as (prd & Evd & Hd & _).
  apply bind_ret_inv in H as (t & st & Et & H). destruct (run_command_ret _ _ _ _ _ Et) as (prt & Evt & Ht & _).
  apply bind_ret_inv in H as (r & sr & Er & H). destruct (run_command_ret _ _ _ _ _ Er) as (prr & Evr & Hr & _).
  rewrite Hd, Ht, Hr in H.
  apply bind_ret_inv in H as (u0 & sw & Ew & H).
  assert (Evw : events sw = events sr).
  { destruct (is_nil _); now inversion Ew. }
  apply bind_ret_inv in H as (p & sp & Ep & H). destruct (run_command_ret _ _ _ _ _ Ep) as (prp & Evp & Hp & _).
  rewrite Hp in H.
  apply bind_ret_inv in H as (u1 & sl & El & H). inversion El; subst u1 sl; clear El.
  inversion H; subst; clear H.
  exists prn, prd, prt, prr, prp. repeat split; [| now symmetry].
  apply since_app. cbn [events].
  rewrite Evp, Evw, Evr, Evt, Evd, Evn. now rewrite <- !app_assoc.
Qed.


(** ** The claim about the metrics *)



Lemma try_step_inv {A B : Type} (m : M A) (handler : exn -> M B) (k : A -> M B)
    (s : state) (r : result B) (s' : state) :
  try_step m handler k s = (r, s') ->
  (exists a s1, m s = (Ret a, s1) /\ k a s1 = (r, s')) \/
  (exists e s1, m s = (Raise e, s1) /\ is_Exception e = true /\ handler e s1 = (r, s')) \/
  (exists e, m s = (Raise e, s') /\ is_Exception e = false /\ r = Raise e).
Proof.
  unfold try_step. destruct (m s) as [[a | e] s1]; intros H.
  - left. eauto.
  - destruct (is_Exception e) eqn:E.
    + right. left. eauto.
    + right. right. inversion H; subst. eauto.
Qed.



Lemma metrics_failed_inv (pod_name : string) (m : metrics) (e : exn) (s : state)
    (r : result metrics) (s' : state) :
  metrics_failed pod_name m e s = (r, s') -> r = Ret m /\ events s' = events s.
Proof. intros H. inversion H; subst. now split. Qed.









(** ** The claim about failing commands *)











(** ** Further properties: the selection *)

Lemma random_choice_outcome (x : string) (seq : list string) (s : state)
    (r : result string) (s' : state) :
  random_choice (x :: seq) s = (r, s') ->
  exists i c, i = (fst (rand (world s)) mod length (x :: seq))%nat /\
              (i < length (x :: seq))%nat /\ nth_error (x :: seq) i = Some c /\
              r = Ret c /\
              events s' = (events s ++ [EvChoice (length (x :: seq)) i])%list.
Proof.
  unfold random_choice. destruct (rand (world s)) as [n w]. intros H.
  assert (Hi : (n mod length (x :: seq) < length (x :: seq))%nat)
    by (apply Nat.mod_upper_bound; discriminate).
  exists (n mod length (x :: seq))%nat, (nth (n mod length (x :: seq)) (x :: seq) "").
  split; [reflexivity |].
  split; [exact Hi |]. split; [now apply nth_error_nth' |].
  apply (f_equal fst) in H as Hr. apply (f_equal (fun p => events (snd p))) in H.
  cbn [fst snd events] in Hr, H. now rewrite <- Hr, <- H.
Qed.

(** The trace and the result of a selection, case by case, with the position
    that is drawn: what the random source gives, modulo the length of the
    whole list. *)
Lemma select_drawn (controllers : list string) (namespace strategy : string)
    (s : state) (r : result (option string * option string)) (s' : state) :
  select_controller_for_reduction controllers namespace strategy s = (r, s') ->
  (controllers = [] /\ r = Ret (None, None) /\ since s s' = [EvCall FnSelect]) \/
  exists i c prd,
    i = (fst (rand (world s)) mod length controllers)%nat /\
    (i < length controllers)%nat /\ nth_error controllers i = Some c /\
    let head := [EvCall FnSelect; EvChoice (length controllers) i;
                 EvRun (probe_cmd "deployment" c namespace) true prd] in
    match prd with
    | Raised e => r = Raise e /\ since s s' = head
    | _ =>
        if resolves prd then r = Ret (Some c, Some "deployment") /\ since s s' = head
        else
          exists prt,
            since s s' = (head ++ [EvRun (probe_cmd "statefulset" c namespace) true prt])%list /\
            r = match prt with
                | Raised e => Raise e
                | _ => Ret (Some c, Some (if resolves prt then "statefulset" else "replicaset"))
                end
    end.
Proof.
  intros H. unfold select_controller_for_reduction in H.
  apply bind_inv in H as [(u & s0 & E0 & H) | (e & E0 & _)]; [| discriminate].
  inversion E0; subst u s0; clear E0.
  destruct controllers as [| x rest]; cbn [is_nil] in H.
  { left. inversion H; subst. split; [reflexivity |]. split; [reflexivity |].
    now apply since_app. }
  right.
  assert (Hc : exists i c sa,
             i = (fst (rand (world s)) mod length (x :: rest))%nat /\
             (i < length (x :: rest))%nat /\ nth_error (x :: rest) i = Some c /\
             events sa = ((events s ++ [EvCall FnSelect]) ++
                          [EvChoice (length (x :: rest)) i])%list /\
             bind (run_command (probe_cmd "deployment" c namespace) true)
               (fun d =>
                  if truthy d then ret (Some c, Some "deployment")
                  else
                    bind (run_command (probe_cmd "statefulset" c namespace) true)
                      (fun t =>
                         if truthy t then ret (Some c, Some "statefulset")
                         else ret (Some c, Some "replicaset"))) sa = (r, s')).
  { apply bind_inv in H as [(c & sa & Ea & H) | (e & Ea & _)].
    - assert (Ea' : random_choice (x :: rest)
                      (mkState (world s) (events s ++ [EvCall FnSelect]) (logs s))
                    = (Ret c, sa))
        by (destruct (String.eqb strategy "random"); exact Ea).
      destruct (random_choice_outcome _ _ _ _ _ Ea') as (i & c' & Hd & Hi & Hn & Hr & Ev).
      injection Hr as <-. exists i, c, sa. cbn [events world] in Ev, Hd. auto.
    - assert (Ea' : random_choice (x :: rest)
                      (mkState (world s) (events s ++ [EvCall FnSelect]) (logs s))
                    = (Raise e, s'))
        by (destruct (String.eqb strategy "random"); exact Ea).
      destruct (random_choice_outcome _ _ _ _ _ Ea') as (i & c' & _ & _ & _ & Hr & _).
      discriminate. }
  destruct Hc as (i & c & sa & Hdraw & Hi & Hn & Eva & Hrest). clear H.
  exists i, c.
  apply bind_inv in Hrest as [(d & sd & Ed & H) | (e & Ed & ->)].
  - destruct (run_command_outcome _ _ _ _ _ Ed) as (prd & Evd & Hd).
    exists prd. split; [exact Hdraw |]. split; [exact Hi |]. split; [exact Hn |]. cbv zeta.
    assert (Hhead : since s sd =
                    [EvCall FnSelect; EvChoice (length (x :: rest)) i;
                     EvRun (probe_cmd "deployment" c namespace) true prd])
      by (apply since_app; rewrite Evd, Eva; now rewrite <- !app_assoc).
    assert (Hdd : d = data prd /\ forall e, prd <> Raised e).
    { destruct prd; inversion Hd; subst; split; congruence. }
    destruct Hdd as [-> Hnr]. rewrite truthy_data_resolves in H.
    destruct (resolves prd) eqn:Eres.
    + inversion H; subst. destruct prd as [o1 | e1 | e1]; try (now split);
        now destruct (Hnr e1).
    + assert (Hgoal : exists prt,
                 since s s' =
                   ([EvCall FnSelect; EvChoice (length (x :: rest)) i;
                     EvRun (probe_cmd "deployment" c namespace) true prd] ++
                    [EvRun (probe_cmd "statefulset" c namespace) true prt])%list /\
                 r = match prt with
                     | Raised e => Raise e
                     | _ => Ret (Some c,
                                 Some (if resolves prt then "statefulset" else "replicaset"))
                     end).
      { apply bind_inv in H as [(t & st & Et & H) | (e & Et & ->)].
        - destruct (run_command_outcome _ _ _ _ _ Et) as (prt & Evt & Ht).
          exists prt.
          assert (Htt : t = data prt /\ forall e, prt <> Raised e).
          { destruct prt; inversion Ht; subst; split; congruence. }
          destruct Htt as [-> Hnt]. rewrite truthy_data_resolves in H.
          assert (Ev' : events s' = events st)
            by (destruct (resolves prt); now inversion H).
          split.
          + apply since_app. rewrite Ev', Evt, Evd, Eva. now rewrite <- !app_assoc.
          + destruct (resolves prt) eqn:Er; inversion H; subst;
              destruct prt as [o2 | e2 | e2]; try reflexivity; now destruct (Hnt e2).
        - destruct (run_command_outcome _ _ _ _ _ Et) as (prt & Evt & Ht).
          exists prt. split.
          + apply since_app. rewrite Evt, Evd, Eva. now rewrite <- !app_assoc.
          + destruct prt; congruence. }
      destruct prd as [o1 | e1 | e1]; try exact Hgoal; now destruct (Hnr e1).
  - destruct (run_command_outcome _ _ _ _ _ Ed) as (prd & Evd & Hd).
    exists prd. split; [exact Hdraw |]. split; [exact Hi |]. split; [exact Hn |]. cbv zeta.
    destruct prd; try congruence. split; [congruence |].
    apply since_app. rewrite Evd, Eva. now rewrite <- !app_assoc.
Qed.


(** The trace and the result of a selection, case by case. *)
Lemma select_trace (controllers : list string) (namespace strategy : string)
    (s : state) (r : result (option string * option string)) (s' : state) :
  select_controller_for_reduction controllers namespace strategy s = (r, s') ->
  (controllers = [] /\ r = Ret (None, None) /\ since s s' = [EvCall FnSelect]) \/
  exists i c prd,
    (i < length controllers)%nat /\ nth_error controllers i = Some c /\
    let head := [EvCall FnSelect; EvChoice (length controllers) i;
                 EvRun (probe_cmd "deployment" c namespace) true prd] in
    match prd with
    | Raised e => r = Raise e /\ since s s' = head
    | _ =>
        if resolves prd then r = Ret (Some c, Some "deployment") /\ since s s' = head
        else
          exists prt,
            since s s' = (head ++ [EvRun (probe_cmd "statefulset" c namespace) true prt])%list /\
            r = match prt with
                | Raised e => Raise e
                | _ => Ret (Some c, Some (if resolves prt then "statefulset" else "replicaset"))
                end
    end.
Proof.
  intros H. destruct (select_drawn _ _ _ _ _ _ H)
    as [Hnil | (i & c & prd & _ & Hi & Hn & Hcase)]; [now left | right].
  exists i, c, prd. auto.
Qed.

(** ** The claim about the selection *)

(** C7.  For a non-empty list of controllers and each of the four accepted
    strategies, [select_controller_for_reduction] is, state for state and so
    for the same random source, the selection that strategy random makes.
    That selection draws once, over the whole list: the position is what the
    random source gives modulo the length of the list, the draw is the
    second event of the trace, and the controller at that position is the
    one that is returned, with one of the three kinds; the selection returns
    it unless one of its probes raised, and then it raises the same. *)
Theorem C7_every_strategy_selects_like_random
    (controllers : list string) (namespace strategy : string) (s : state) :
  controllers <> [] ->
  In strategy ["random"; "youngest"; "oldest"; "resource-hog"] ->
  let i := (fst (rand (world s)) mod length controllers)%nat in
  let run := select_controller_for_reduction controllers namespace strategy s in
  run = select_controller_for_reduction controllers namespace "random" s /\
  (i < length controllers)%nat /\
  exists c,
    nth_error controllers i = Some c /\
    firstn 2 (since s (snd run)) = [EvCall FnSelect; EvChoice (length controllers) i] /\
    ((exists k, fst run = Ret (Some c, Some k) /\ In k kinds) \/
     (exists e, fst run = Raise e /\ exec_raised e (since s (snd run)))).
Proof using Type.
  clear utcnow sleep strptime py_isdigit py_int.
  intros Hne Hin i run. split.
  { subst run. unfold select_controller_for_reduction.
    destruct (String.eqb strategy "random"); reflexivity. }
  assert (Hrun : select_controller_for_reduction controllers namespace strategy s
                 = (fst run, snd run))
    by (subst run; now destruct (select_controller_for_reduction _ _ _ _)).
  destruct (select_drawn _ _ _ _ _ _ Hrun)
    as [(Hnil & _) | (i0 & c & prd & Hdraw & Hi & Hn & Hcase)]; [contradiction |].
  fold i in Hdraw. subst i0. split; [exact Hi |].
  exists c. split; [exact Hn |]. cbv zeta in Hcase.
  assert (Hk : forall b : bool, In (if b then "statefulset" else "replicaset") kinds)
    by (intros [|]; unfold kinds; cbn; tauto).
  assert (Hd : In "deployment" kinds) by (unfold kinds; cbn; tauto).
  assert (Hsecond :
            forall prt,
              since s (snd run) =
                ([EvCall FnSelect; EvChoice (length controllers) i;
                  EvRun (probe_cmd "deployment" c namespace) true prd] ++
                 [EvRun (probe_cmd "statefulset" c namespace) true prt])%list ->
              fst run = match prt with
                        | Raised e => Raise e
                        | _ => Ret (Some c,
                                    Some (if resolves prt then "statefulset"
                                          else "replicaset"))
                        end ->
              firstn 2 (since s (snd run))
              = [EvCall FnSelect; EvChoice (length controllers) i] /\
              ((exists k, fst run = Ret (Some c, Some k) /\ In k kinds) \/
               (exists e, fst run = Raise e /\ exec_raised e (since s (snd run))))).
  { intros prt Hs Hr. rewrite Hs. split; [reflexivity |].
    destruct prt as [o2 | e2 | e2].
    - left. eexists. split; [exact Hr | exact (Hk (resolves (Completed o2)))].
    - left. eexists. split; [exact Hr | exact (Hk false)].
    - right. exists e2. split; [exact Hr |].
      eexists _, _. right. right. right. left. reflexivity. }
  destruct prd as [o1 | e1 | e1].
  - destruct (resolves (Completed o1)).
    + destruct Hcase as [Hr Hs]. rewrite Hs. split; [reflexivity |].
      left. exists "deployment". now split.
    + destruct Hcase as (prt & Hs & Hr). exact (Hsecond prt Hs Hr).
  - destruct (resolves (CalledProcessError e1)).
    + destruct Hcase as [Hr Hs]. rewrite Hs. split; [reflexivity |].
      left. exists "deployment". now split.
    + destruct Hcase as (prt & Hs & Hr). exact (Hsecond prt Hs Hr).
  - destruct Hcase as [Hr Hs]. rewrite Hs. split; [reflexivity |].
    right. exists e1. split; [exact Hr |].
    eexists _, _. right. right. left. reflexivity.
Qed.


(** X1.  A selection that returns gives either nothing at all, which happens
    for the empty list only and then without a random draw or a command, or
    one of the controllers of the list together with one of the three
    kinds. *)
Theorem X1_select_returns_a_listed_controller
    (controllers : list string) (namespace strategy : string) (s : state)
    (target controller_type : option string) (s' : state) :
  select_controller_for_reduction controllers namespace strategy s
  = (Ret (target, controller_type), s') ->
  (controllers = [] /\ target = None /\ controller_type = None /\
   since s s' = [EvCall FnSelect]) \/
  (exists c k, target = Some c /\ controller_type = Some k /\
               In c controllers /\ In k kinds).
Proof using Type.
  clear utcnow sleep strptime py_isdigit py_int.
  intros H. destruct (select_trace _ _ _ _ _ _ H)
    as [(Hnil & Hr & Hs) | (i & c & prd & Hi & Hn & Hcase)].
  - left. inversion Hr; subst. auto.
  - right. apply nth_error_In in Hn. cbv zeta in Hcase.
    destruct prd as [out | err | e]; [| | now destruct Hcase].
    + destruct (resolves (Completed out)).
      * destruct Hcase as [Hr _]. inversion Hr; subst.
        exists c, "deployment". unfold kinds. cbn. tauto.
      * destruct Hcase as (prt & _ & Hr).
        destruct prt as [o2 | e2 | e2]; [| | discriminate];
          inversion Hr; subst; eexists c, _;
          (split; [reflexivity | split; [reflexivity | split; [exact Hn |]]]);
          unfold kinds;
          try match goal with |- context [if ?b then _ else _] => destruct b end;
          cbn; tauto.
    + destruct (resolves (CalledProcessError err)).
      * destruct Hcase as [Hr _]. inversion Hr; subst.
        exists c, "deployment". unfold kinds. cbn. tauto.
      * destruct Hcase as (prt & _ & Hr).
        destruct prt as [o2 | e2 | e2]; [| | discriminate];
          inversion Hr; subst; eexists c, _;
          (split; [reflexivity | split; [reflexivity | split; [exact Hn |]]]);
          unfold kinds;
          try match goal with |- context [if ?b then _ else _] => destruct b end;
          cbn; tauto.
Qed.



(** ** Further properties: the reduction *)

(** X3.  [reduce_controller] returns [True] exactly when it has issued its
    scale command and that command completed with exit status zero, whatever
    the command printed; it returns [False] when it issued none or when the
    command exited with another status. *)
Theorem X3_reduce_returns_true_iff_scale_completed
    (controller_name : option string) (namespace : string) (controller_type : option string)
    (s : state) (b : bool) (s' : state) :
  reduce_controller controller_name namespace controller_type s = (Ret b, s') ->
  (b = true <->
   exists c out, In (EvRun c false (Completed out)) (since s s') /\ is_scale c = true).
Proof.
  intros H. destruct (reduce_controller_trace _ _ _ _ _ _ H)
    as [(_ & Hr & Hs) | (_ & prr & Hcase)]; cbv zeta in *.
  - inversion Hr; subst. rewrite Hs. split; [discriminate |].
    intros (c & out & [Hin | []] & _). discriminate.
  - assert (Hrefuse :
              Ret b = Ret false /\
              since s s' =
                [EvCall FnReduce;
                 EvRun (replicas_cmd (kind_of controller_type)
                          (or_else controller_name "") namespace) true prr] ->
              b = true <->
              exists c out,
                In (EvRun c false (Completed out)) (since s s') /\ is_scale c = true).
    { intros [Hr Hs]. inversion Hr; subst. rewrite Hs. split; [discriminate |].
      intros (c & out & [Hin | [Hin | []]] & _); discriminate. }
    assert (Hgen :
              if negb (resolves prr) || negb (py_isdigit (output prr))
              then Ret b = Ret false /\
                   since s s' =
                     [EvCall FnReduce;
                      EvRun (replicas_cmd (kind_of controller_type)
                               (or_else controller_name "") namespace) true prr]
              else
                match py_int (output prr) with
                | None =>
                    Ret b = Raise ValueError /\
                    since s s' =
                      [EvCall FnReduce;
                       EvRun (replicas_cmd (kind_of controller_type)
                                (or_else controller_name "") namespace) true prr]
                | Some count =>
                    if count <=? 0
                    then Ret b = Ret false /\
                         since s s' =
                           [EvCall FnReduce;
                            EvRun (replicas_cmd (kind_of controller_type)
                                     (or_else controller_name "") namespace) true prr]
                    else
                      exists prs,
                        since s s' =
                          [EvCall FnReduce;
                           EvRun (replicas_cmd (kind_of controller_type)
                                    (or_else controller_name "") namespace) true prr;
                           EvRun (scale_cmd (kind_of controller_type)
                                    (or_else controller_name "") namespace
                                    (count - 1)) false prs] /\
                        Ret b = match prs with
                                | Completed _ => Ret true
                                | CalledProcessError _ => Ret false
                                | Raised e => Raise e
                                end
                end).
    { destruct prr as [o1 | e1 | e1]; try exact Hcase. now destruct Hcase. }
    clear Hcase.
    destruct (negb (resolves prr) || negb (py_isdigit (output prr)));
      [exact (Hrefuse Hgen) |].
    destruct (py_int (output prr)) as [count |]; [| now destruct Hgen].
    destruct (count <=? 0); [exact (Hrefuse Hgen) |].
    destruct Hgen as (prs & Hs & Hr). rewrite Hs.
    destruct prs as [out | err | e]; inversion Hr; subst.
    + split; [intros _ | reflexivity]. eexists _, out.
      split; [right; right; left; reflexivity | reflexivity].
    + split; [discriminate |].
      intros (c & out & [Hin | [Hin | [Hin | []]]] & _); discriminate.
Qed.


(** ** Further properties: what a round scales *)

Lemma scale_count_app (l1 l2 : list event) :
  scale_count (l1 ++ l2) = (scale_count l1 + scale_count l2)%nat.
Proof. unfold scale_count. now rewrite filter_app, length_app. Qed.

Lemma quiet_is_safe (namespace : string) (controllers : list string) (l : list event) :
  Forall quiet l ->
  Forall (safe_scale namespace controllers) l /\ scale_count l = 0%nat.
Proof.
  unfold scale_count. induction 1 as [| ev l [_ Hev] _ [IH1 IH2]]; [now split |].
  split.
  - constructor; [| exact IH1]. destruct ev; try exact I. cbn in Hev. cbn. congruence.
  - cbn. now rewrite Hev.
Qed.

Lemma scales_safely_quiet (namespace : string) (controllers : list string) (k : nat)
    {A : Type} (m : M A) :
  emits quiet m -> scales_safely namespace controllers k m.
Proof.
  intros H. apply (produces_weaken _ _ _ H). intros _ new Hnew.
  destruct (quiet_is_safe namespace controllers _ Hnew) as [Hs Hc].
  split; [exact Hs | lia].
Qed.

Lemma scales_safely_bind (namespace : string) (controllers : list string) (k1 k2 k : nat)
    {A B : Type} (m : M A) (f : A -> M B) :
  scales_safely namespace controllers k1 m ->
  (forall a, scales_safely namespace controllers k2 (f a)) ->
  (k1 + k2 <= k)%nat ->
  scales_safely namespace controllers k (bind m f).
Proof.
  intros Hm Hf Hk.
  apply (produces_bind m f
           (fun _ new => Forall (safe_scale namespace controllers) new /\
                         (scale_count new <= k1)%nat)
           (fun _ _ new => Forall (safe_scale namespace controllers) new /\
                           (scale_count new <= k2)%nat));
    [exact Hm | exact Hf | |].
  - intros e new [H1 H2]. split; [exact H1 | lia].
  - intros a new1 r new2 [H1 H2] [H3 H4]. split; [now apply Forall_app |].
    rewrite scale_count_app. lia.
Qed.

Lemma get_pod_metrics_quiet (pod_name namespace : string) :
  emits quiet (get_pod_metrics pod_name namespace).
Proof.
  unfold get_pod_metrics, metrics_failed.
  repeat first
    [ apply emits_ret
    | apply emits_log
    | apply emits_enter; split; reflexivity
    | apply emits_run_command; intros; split; reflexivity
    | apply emits_read_clock; intros; split; reflexivity
    | apply emits_bind; [| intros ?]
    | apply emits_try_step; [| intros ? | intros ?]
    | match goal with
      | |- emits _ (match ?x with _ => _ end) => destruct x
      end ].
Qed.

Lemma report_pods_quiet (namespace : string) (pods : list string) :
  emits quiet (report_pods namespace pods).
Proof.
  induction pods as [| pod rest IH]; cbn [report_pods].
  - apply emits_ret.
  - apply emits_bind; [apply get_pod_metrics_quiet | intros m].
    apply emits_bind; [apply emits_log | intros _]. exact IH.
Qed.


(** A selection issues no scale command, and what it returns is nothing or a
    controller of the list with one of the three kinds. *)
Lemma select_listed (controllers : list string) (namespace strategy : string) :
  produces (select_controller_for_reduction controllers namespace strategy)
    (fun r new =>
       Forall quiet new /\
       forall target controller_type,
         r = Ret (target, controller_type) ->
         target = None \/
         exists c k, target = Some c /\ controller_type = Some k /\
                     In c controllers /\ In k kinds).
Proof.
  intros s r s' H.
  destruct (select_not_reduce _ _ _ _ _ _ H) as (new & Ev & _).
  exists new. split; [exact Ev |].
  pose proof (since_app _ _ _ Ev) as Hnew.
  assert (Hkinds : In "deployment" kinds /\ In "statefulset" kinds /\ In "replicaset" kinds)
    by (unfold kinds; cbn; tauto).
  destruct Hkinds as (Kd & Kt & Kr).
  destruct (select_trace _ _ _ _ _ _ H)
    as [(_ & Hr & Hs) | (i & c & prd & Hi & Hn & Hcase)].
  - rewrite Hnew in Hs. rewrite Hs. subst r. split; [repeat constructor |].
    intros t k Ht. inversion Ht. auto.
  - apply nth_error_In in Hn. cbv zeta in Hcase.
    assert (Hgen :
              (exists e, r = Raise e) \/
              exists k, r = Ret (Some c, Some k) /\ In k kinds).
    { destruct prd as [o1 | e1 | e1]; [| | left; destruct Hcase; eauto].
      - destruct (resolves (Completed o1)).
        + right. destruct Hcase as [-> _]. eauto.
        + destruct Hcase as (prt & _ & ->).
          destruct prt as [o2 | e2 | e2]; [| | left; eauto]; right; eexists;
            (split; [reflexivity |]);
            match goal with |- context [if ?b then _ else _] => destruct b end;
            assumption.
      - destruct (resolves (CalledProcessError e1)).
        + right. destruct Hcase as [-> _]. eauto.
        + destruct Hcase as (prt & _ & ->).
          destruct prt as [o2 | e2 | e2]; [| | left; eauto]; right; eexists;
            (split; [reflexivity |]);
            match goal with |- context [if ?b then _ else _] => destruct b end;
            assumption. }
    assert (Hq : Forall quiet new).
    { rewrite <- Hnew.
      destruct prd as [o1 | e1 | e1].
      - destruct (resolves (Completed o1)).
        + destruct Hcase as [_ ->]. repeat constructor.
        + destruct Hcase as (prt & -> & _). repeat constructor.
      - destruct (resolves (CalledProcessError e1)).
        + destruct Hcase as [_ ->]. repeat constructor.
        + destruct Hcase as (prt & -> & _). repeat constructor.
      - destruct Hcase as [_ ->]. repeat constructor. }
    split; [exact Hq |].
    intros t k Ht. right. destruct Hgen as [(e & He) | (k0 & Hk0 & Hin)]; [congruence |].
    rewrite Hk0 in Ht. inversion Ht; subst. exists c, k0. repeat split; assumption.
Qed.

(** A reduction of a listed controller with one of the three kinds issues at
    most one scale command, a safe one. *)
Lemma reduce_controller_safe
    (controllers : list string) (c k namespace : string) :
  In c controllers -> In k kinds -> c <> "" ->
  scales_safely namespace controllers 1 (reduce_controller (Some c) namespace (Some k)).
Proof.
  intros Hc Hk Hne s r s' H.
  destruct (reduce_controller_at_most _ _ _ _ _ _ H) as (new & Ev & _).
  exists new. split; [exact Ev |].
  pose proof (since_app _ _ _ Ev) as Hnew. rewrite <- Hnew.
  assert (Hkind : kind_of (Some k) = k).
  { unfold kinds in Hk. cbn in Hk.
    destruct Hk as [<- | [<- | [<- | []]]]; reflexivity. }
  destruct (reduce_controller_trace _ _ _ _ _ _ H) as [(_ & _ & ->) | (_ & prr & Hcase)].
  { split; [apply Forall_cons; [exact I | constructor] | cbn; lia]. }
  cbv zeta in Hcase. rewrite Hkind in Hcase.
  assert (Hname : or_else (Some c) "" = c) by (now destruct c).
  rewrite Hname in Hcase.
  assert (Hshort : Forall (safe_scale namespace controllers)
                     [EvCall FnReduce; EvRun (replicas_cmd k c namespace) true prr] /\
                   (scale_count [EvCall FnReduce;
                                 EvRun (replicas_cmd k c namespace) true prr] <= 1)%nat).
  { split; [| cbn; lia].
    apply Forall_cons; [exact I |]. apply Forall_cons; [cbn; discriminate | constructor]. }
  assert (Hgen :
            since s s' = [EvCall FnReduce; EvRun (replicas_cmd k c namespace) true prr] \/
            (exists count prs,
                0 < count /\
                since s s' =
                  [EvCall FnReduce; EvRun (replicas_cmd k c namespace) true prr;
                   EvRun (scale_cmd k c namespace (count - 1)) false prs])).
  { assert (Hmid :
              (if negb (resolves prr) || negb (py_isdigit (output prr))
              then r = Ret false /\
                   since s s' =
                     [EvCall FnReduce; EvRun (replicas_cmd k c namespace) true prr]
              else
                match py_int (output prr) with
                | None =>
                    r = Raise ValueError /\
                    since s s' =
                      [EvCall FnReduce; EvRun (replicas_cmd k c namespace) true prr]
                | Some count =>
                    if count <=? 0
                    then r = Ret false /\
                         since s s' =
                           [EvCall FnReduce;
                            EvRun (replicas_cmd k c namespace) true prr]
                    else
                      exists prs,
                        since s s' =
                          [EvCall FnReduce;
                           EvRun (replicas_cmd k c namespace) true prr;
                           EvRun (scale_cmd k c namespace (count - 1)) false prs] /\
                        r = match prs with
                            | Completed _ => Ret true
                            | CalledProcessError _ => Ret false
                            | Raised e => Raise e
                            end
                end) \/
              since s s' = [EvCall FnReduce; EvRun (replicas_cmd k c namespace) true prr]).
    { destruct prr as [o1 | e1 | e1]; [left; exact Hcase | left; exact Hcase |].
      right. now destruct Hcase. }
    destruct Hmid as [Hmid | Hs]; [| now left].
    destruct (negb (resolves prr) || negb (py_isdigit (output prr)));
      [left; now destruct Hmid |].
    destruct (py_int (output prr)) as [count |]; [| left; now destruct Hmid].
    destruct (count <=? 0) eqn:Epos; [left; now destruct Hmid |].
    apply Z.leb_gt in Epos. destruct Hmid as (prs & Hs & _). right. eauto. }
  destruct Hgen as [-> | (count & prs & Hpos & ->)]; [exact Hshort |].
  split; [| cbn; lia].
  apply Forall_cons; [exact I |].
  apply Forall_cons; [cbn; discriminate |].
  apply Forall_cons; [| constructor].
  intros _. exists k, c, (count - 1).
  repeat split; try assumption. lia.
Qed.


(** What follows a selection is safe as soon as it is safe for the results
    that a selection can have. *)
Lemma select_then_safe {B : Type}
    (controllers : list string) (namespace strategy : string)
    (f : option string * option string -> M B) :
  (forall c k, In c controllers -> In k kinds ->
               scales_safely namespace controllers 1 (f (Some c, Some k))) ->
  (forall k, scales_safely namespace controllers 1 (f (None, k))) ->
  scales_safely namespace controllers 1
    (bind (select_controller_for_reduction controllers namespace strategy) f).
Proof.
  intros Hsome Hnone s r s' H.
  apply bind_inv in H as [([t k] & s1 & E & H) | (e & E & ->)];
    destruct (select_listed _ _ _ _ _ _ E) as (new1 & Ev1 & Hq & Hres);
    destruct (quiet_is_safe namespace controllers _ Hq) as [Hs1 Hc1].
  - assert (Hf : scales_safely namespace controllers 1 (f (t, k))).
    { destruct (Hres t k eq_refl) as [-> | (c & k' & -> & -> & Hc & Hk)]; auto. }
    destruct (Hf _ _ _ H) as (new2 & Ev2 & Hs2 & Hc2).
    exists (new1 ++ new2)%list. split; [now rewrite Ev2, Ev1, app_assoc |].
    split; [now apply Forall_app |]. rewrite scale_count_app. lia.
  - exists new1. split; [exact Ev1 |]. split; [exact Hs1 | lia].
Qed.

(** X4.  Whatever a round scales was listed in that round: every scale
    command in the trace of a round acts in the namespace of the battle, on a
    controller that the enumeration of that round returned and whose name is
    not empty, with one of the three kinds and a replica count that is not
    negative; and a round issues at most one such command. *)
Theorem X4_round_scales_only_listed_controllers
    (namespace : string) (interval : Z) (strategy : string) (max_rounds : option Z)
    (round_num : Z) (s : state) (controllers pods : list string) (s1 : state)
    (r : result control) (s' : state) :
  get_controllers namespace (logged INFO (MsgRound round_num) s)
  = (Ret (Pair controllers pods), s1) ->
  battle_round namespace interval strategy max_rounds round_num s = (r, s') ->
  Forall (safe_scale namespace controllers) (since s s') /\
  (scale_count (since s s') <= 1)%nat.
Proof.
  intros Henum H. unfold battle_round in H.
  apply bind_inv in H as [(u & s0 & E0 & H) | (e & E0 & _)]; [| discriminate].
  inversion E0; subst u s0; clear E0. unfold logged in Henum.
  apply bind_inv in H as [(a & sx & E & H) | (e & E & _)];
    rewrite Henum in E; [| discriminate].
  inversion E; subst a sx; clear E.
  destruct (get_controllers_enumerating namespace _ _ _ Henum) as (new1 & Ev1 & Hn1).
  cbn [events] in Ev1.
  assert (Hq1 : Forall quiet new1).
  { apply (Forall_impl _ (P := enumerating)); [| exact Hn1].
    intros ev (_ & Hr & _ & Hsc). now split. }
  destruct (quiet_is_safe namespace controllers _ Hq1) as [Hs1 Hc1].
  assert (Hbreak : forall msg, scales_safely namespace controllers 1
                                 (bind (log INFO msg) (fun _ => ret Break))).
  { intros msg. apply scales_safely_quiet.
    apply emits_bind; [apply emits_log | intros _; apply emits_ret]. }
  assert (Htail : exists new2,
             events s' = (events s1 ++ new2)%list /\
             Forall (safe_scale namespace controllers) new2 /\
             (scale_count new2 <= 1)%nat).
  { match type of H with
    | ?m s1 = _ => assert (Hm : scales_safely namespace controllers 1 m)
    end; [| exact (Hm _ _ _ H)].
    destruct (is_nil controllers); [apply Hbreak |].
    destruct (is_nil pods); [apply Hbreak |].
    apply (scales_safely_bind _ _ 0 1);
      [apply scales_safely_quiet, emits_log | intros _ | lia].
    apply (scales_safely_bind _ _ 0 1);
      [apply scales_safely_quiet, emits_log | intros _ | lia].
    apply (scales_safely_bind _ _ 0 1);
      [apply scales_safely_quiet, report_pods_quiet | intros _ | lia].
    destruct ((length controllers =? 1)%nat && (length pods <=? 1)%nat).
    { destruct pods; apply Hbreak. }
    assert (Hrest : forall k,
               scales_safely namespace controllers k
                 (if rounds_reached max_rounds round_num
                  then bind (log INFO (MsgMaxRounds match max_rounds with
                                                    | Some n => n
                                                    | None => 0
                                                    end))
                         (fun _ => ret Break)
                  else bind (log INFO (MsgNextRound interval))
                         (fun _ => bind (time_sleep interval) (fun _ => ret Continue)))).
    { intros k. apply scales_safely_quiet. destruct (rounds_reached _ _).
      - apply emits_bind; [apply emits_log | intros _; apply emits_ret].
      - apply emits_bind; [apply emits_log | intros _].
        apply emits_bind;
          [apply emits_time_sleep; intros; split; reflexivity
          | intros _; apply emits_ret]. }
    apply select_then_safe.
    - intros c k Hc Hk. cbn beta iota.
      destruct c as [| c0 r0]; cbn [truthy nonempty].
      + apply (scales_safely_bind _ _ 0 1);
          [apply scales_safely_quiet, emits_ret | intros _; apply Hrest | lia].
      + apply (scales_safely_bind _ _ 1 0); [| intros _; apply Hrest | lia].
        apply (scales_safely_bind _ _ 1 0);
          [| intros _; apply scales_safely_quiet, emits_ret | lia].
        apply reduce_controller_safe; [assumption | assumption | discriminate].
    - intros k. cbn beta iota. cbn [truthy].
      apply (scales_safely_bind _ _ 0 1);
        [apply scales_safely_quiet, emits_ret | intros _; apply Hrest | lia]. }
  destruct Htail as (new2 & Ev2 & Hs2 & Hc2).
  assert (Ev : events s' = (events s ++ (new1 ++ new2))%list)
    by (now rewrite Ev2, Ev1, app_assoc).
  rewrite (since_app _ _ _ Ev). split; [now apply Forall_app |].
  rewrite scale_count_app. lia.
Qed.


(** ** Further properties: the metrics of a pod *)

Lemma or_else_nonempty (o : option string) (d : string) : d <> "" -> or_else o d <> "".
Proof. destruct o as [[| c r] |]; cbn; congruence. Qed.

(** What [get_pod_metrics] can end with: an exception that [except Exception]
    does not catch, or a dictionary that holds the first few of the four
    entries, in their order. *)
Lemma get_pod_metrics_result (pod_name namespace : string) (s : state)
    (r : result metrics) (s' : state) :
  get_pod_metrics pod_name namespace s = (r, s') ->
  (exists e, r = Raise e /\ is_Exception e = false) \/
  (exists n cpu mem restarts micros,
      restarts <> "" /\
      r = Ret (firstn n [("cpu", of_option cpu); ("memory", of_option mem);
                         ("restarts", PStr restarts); ("age", PSeconds micros)])).
Proof.
  intros H. unfold get_pod_metrics in H.
  apply bind_inv in H as [(u & s0 & E0 & H) | (e & E0 & _)]; [| discriminate].
  clear E0.
  assert (Hz : "0" <> "") by discriminate.
  apply try_step_inv in H
      as [(cpu & s1 & E1 & H) | [(e1 & s1 & E1 & X1 & H) | (e1 & E1 & X1 & ->)]];
    [| | left; eauto].
  2: { apply metrics_failed_inv in H as [-> _]. right.
       exists 0%nat, None, None, "0", 0. now split. }
  apply try_step_inv in H
      as [(mem & s2 & E2 & H) | [(e2 & s2 & E2 & X2 & H) | (e2 & E2 & X2 & ->)]];
    [| | left; eauto].
  2: { apply metrics_failed_inv in H as [-> _]. right.
       exists 1%nat, cpu, None, "0", 0. now split. }
  apply try_step_inv in H
      as [(restarts & s3 & E3 & H) | [(e3 & s3 & E3 & X3 & H) | (e3 & E3 & X3 & ->)]];
    [| | left; eauto].
  2: { apply metrics_failed_inv in H as [-> _]. right.
       exists 2%nat, cpu, mem, "0", 0. now split. }
  pose proof (or_else_nonempty restarts "0" Hz) as Hne.
  apply try_step_inv in H
      as [(creation & s4 & E4 & H) | [(e4 & s4 & E4 & X4 & H) | (e4 & E4 & X4 & ->)]];
    [| | left; eauto].
  2: { apply metrics_failed_inv in H as [-> _]. right.
       exists 3%nat, cpu, mem, (or_else restarts "0"), 0. now split. }
  right. destruct creation as [[| c t] |].
  - inversion H; subst. exists 3%nat, cpu, mem, (or_else restarts "0"), 0. now split.
  - destruct (strptime (String c t)) as [creation_dt |].
    + apply bind_inv in H as [(now & s5 & E5 & H) | (e5 & E5 & _)].
      * inversion H; subst.
        exists 4%nat, cpu, mem, (or_else restarts "0"), (now - creation_dt * 1000000).
        now split.
      * unfold read_clock in E5. destruct (utcnow (world s4)). discriminate.
    + apply metrics_failed_inv in H as [-> _].
      exists 3%nat, cpu, mem, (or_else restarts "0"), 0. now split.
  - inversion H; subst. exists 3%nat, cpu, mem, (or_else restarts "0"), 0. now split.
Qed.

(** What [get_pod_metrics] raises is no [Exception]. *)
Lemma get_pod_metrics_interrupted (pod_name namespace : string) (s : state)
    (e : exn) (s' : state) :
  get_pod_metrics pod_name namespace s = (Raise e, s') -> is_Exception e = false.
Proof.
  intros H.
  destruct (get_pod_metrics_result _ _ _ _ _ H)
    as [(e' & He & Hx) | (n & cpu & mem & t & micros & _ & Hr)]; [| discriminate].
  now inversion He; subst.
Qed.

Lemma report_pods_interrupted (namespace : string) (pods : list string) :
  forall (s : state) (e : exn) (s' : state),
    report_pods namespace pods s = (Raise e, s') -> is_Exception e = false.
Proof.
  induction pods as [| pod rest IH]; intros s e s' H; [discriminate |].
  cbn [report_pods] in H.
  apply bind_inv in H as [(m & s1 & E1 & H) | (e1 & E1 & He)].
  - apply bind_inv in H as [(u & s2 & E2 & H) | (e2 & E2 & _)]; [| discriminate].
    exact (IH _ _ _ H).
  - inversion He; subst. exact (get_pod_metrics_interrupted _ _ _ _ _ E1).
Qed.


(** X6.  The dictionary that [get_pod_metrics] returns holds the first few of
    the keys cpu, memory, restarts and age, in that order and once each; the
    CPU and the memory usage are [None] or a string, the restart count, when
    it is there, is a string that is not empty, and the age is a number of
    seconds. *)
Theorem X6_metrics_keys_in_order
    (pod_name namespace : string) (s : state) (m : metrics) (s' : state) :
  get_pod_metrics pod_name namespace s = (Ret m, s') ->
  (exists n, map fst m = firstn n ["cpu"; "memory"; "restarts"; "age"]) /\
  NoDup (map fst m) /\
  (forall v, In ("cpu", v) m \/ In ("memory", v) m -> v = PNone \/ exists t, v = PStr t) /\
  (forall v, In ("restarts", v) m -> exists t, v = PStr t /\ t <> "") /\
  (forall v, In ("age", v) m -> exists micros, v = PSeconds micros).
Proof using Type.
  clear rand sleep py_isdigit py_int.
  intros H.
  destruct (get_pod_metrics_result _ _ _ _ _ H)
    as [(e' & He & _) | (n & cpu & mem & t & micros & Hne & Hr)]; [discriminate |].
  injection Hr as ->.
  assert (Hv : forall o, of_option o = PNone \/ exists t0, of_option o = PStr t0)
    by (intros [t0 |]; cbn; eauto).
  split; [exists n; now do 5 (destruct n as [| n]; try reflexivity) |].
  split.
  { do 5 (destruct n as [| n]; cbn [firstn map fst];
          try (repeat constructor; cbn; intuition discriminate)). }
  do 5 (destruct n as [| n];
        [cbn [firstn In];
         repeat split; intros v Hin;
         repeat match goal with
           | Hin' : _ \/ _ |- _ => destruct Hin' as [Hin' | Hin']
           | Hin' : False |- _ => destruct Hin'
           | Hin' : (_, _) = (_, _) |- _ =>
               first [discriminate Hin' | injection Hin' as <-]
           end; eauto |]).
  cbn [firstn In].
  repeat split; intros v Hin;
    repeat match goal with
      | Hin' : _ \/ _ |- _ => destruct Hin' as [Hin' | Hin']
      | Hin' : False |- _ => destruct Hin'
      | Hin' : (_, _) = (_, _) |- _ =>
          first [discriminate Hin' | injection Hin' as <-]
      end; eauto.
Qed.


(** ** Further properties: the events of each function *)

Lemma get_pod_metrics_emits (P : event -> Prop) (pod_name namespace : string) :
  P (EvCall FnGetPodMetrics) ->
  (forall line r, P (EvRun (CStr line) true r)) ->
  (forall t, P (EvNow t)) ->
  emits P (get_pod_metrics pod_name namespace).
Proof.
  intros Hcall Hrun Hnow.
  unfold get_pod_metrics, metrics_failed, cpu_cmd, mem_cmd, restart_cmd, age_cmd.
  repeat first
    [ apply emits_ret
    | apply emits_log
    | apply emits_enter; exact Hcall
    | apply emits_run_command; intros; apply Hrun
    | apply emits_read_clock; exact Hnow
    | apply emits_bind; [| intros ?]
    | apply emits_try_step; [| intros ? | intros ?]
    | match goal with
      | |- emits _ (match ?x with _ => _ end) => destruct x
      end ].
Qed.

Lemma report_pods_emits (P : event -> Prop) (namespace : string) (pods : list string) :
  P (EvCall FnGetPodMetrics) ->
  (forall line r, P (EvRun (CStr line) true r)) ->
  (forall t, P (EvNow t)) ->
  emits P (report_pods namespace pods).
Proof.
  intros Hcall Hrun Hnow. induction pods as [| pod rest IH]; cbn [report_pods].
  - apply emits_ret.
  - apply emits_bind; [now apply get_pod_metrics_emits | intros m].
    apply emits_bind; [apply emits_log | intros _]. exact IH.
Qed.

Lemma select_emits (P : event -> Prop) (controllers : list string)
    (namespace strategy : string) :
  P (EvCall FnSelect) ->
  (forall n i, P (EvChoice n i)) ->
  (forall line r, P (EvRun (CStr line) true r)) ->
  emits P (select_controller_for_reduction controllers namespace strategy).
Proof.
  intros Hcall Hchoice Hrun. unfold select_controller_for_reduction, probe_cmd.
  repeat first
    [ apply emits_ret
    | apply emits_enter; exact Hcall
    | apply emits_run_command; intros; apply Hrun
    | apply emits_random_choice; exact Hchoice
    | apply emits_bind; [| intros ?]
    | match goal with
      | |- emits _ (if ?b then _ else _) => destruct b
      end ].
Qed.

Lemma reduce_controller_emits (P : event -> Prop)
    (controller_name : option string) (namespace : string) (controller_type : option string) :
  P (EvCall FnReduce) ->
  (forall c sh r, P (EvRun c sh r)) ->
  emits P (reduce_controller controller_name namespace controller_type).
Proof.
  intros Hcall Hrun. unfold reduce_controller.
  repeat first
    [ apply emits_ret
    | apply emits_log
    | apply emits_int
    | apply emits_enter; exact Hcall
    | apply emits_run_command; intros; apply Hrun
    | apply emits_bind; [| intros ?]
    | match goal with
      | |- emits _ (if ?b then _ else _) => destruct b
      | |- emits _ (match ?x with _ => _ end) => destruct x
      end ].
Qed.

(** The trace of an enumeration begins with its entry, the one entry into
    [get_controllers] in it, and has no sleep. *)
Lemma get_controllers_begins (namespace : string) :
  produces (get_controllers namespace)
    (fun _ new => exists rest, new = EvCall FnGetControllers :: rest /\ Forall inner rest).
Proof.
  unfold get_controllers.
  apply (produces_bind _ _ (fun _ new => new = [EvCall FnGetControllers])
           (fun _ _ new => Forall inner new)).
  - apply produces_emit. reflexivity.
  - intros _. cbv beta.
    match goal with |- produces ?m _ => change (emits inner m) end.
    repeat first
      [ apply emits_ret
      | apply emits_log
      | apply emits_run_command; intros; repeat split
      | apply emits_bind; [| intros ?]
      | match goal with
        | |- emits _ (if ?b then _ else _) => destruct b
        end ].
  - intros e new ->. exists []. split; [reflexivity | constructor].
  - intros a new1 r new2 -> H. exists new2. now split.
Qed.


(** ** Further properties: the sleeps between the rounds *)

Lemma ends_round_app (interval : Z) (r : result control) (pre new : list event) :
  Forall inner pre -> ends_round interval r new -> ends_round interval r (pre ++ new).
Proof.
  intros Hpre [(Hr & Hi & pre' & -> & Hpre') | [(e & pre' & Hr & -> & Hpre') | (Hr & Hnew)]].
  - left. split; [exact Hr |]. split; [exact Hi |]. exists (pre ++ pre')%list.
    split; [now rewrite app_assoc | now apply Forall_app].
  - right. left. exists e, (pre ++ pre')%list. split; [exact Hr |].
    split; [now rewrite app_assoc | now apply Forall_app].
  - right. right. split; [exact Hr | now apply Forall_app].
Qed.

Lemma ends_round_bind {A : Type} (interval : Z) (m : M A) (k : A -> M control) :
  emits inner m ->
  (forall a, produces (k a) (ends_round interval)) ->
  produces (bind m k) (ends_round interval).
Proof.
  intros Hm Hk.
  apply (produces_bind _ _ (fun _ new => Forall inner new) (fun _ => ends_round interval));
    [exact Hm | exact Hk | |].
  - intros e new H. right. right. split; [discriminate | exact H].
  - intros a new1 r new2 H1 H2. now apply ends_round_app.
Qed.

Lemma ends_round_break (interval : Z) : produces (ret Break) (ends_round interval).
Proof.
  intros s r s' H. inversion H; subst. exists []. split; [now rewrite app_nil_r |].
  right. right. split; [discriminate | constructor].
Qed.

Lemma ends_round_raise (interval : Z) (e : exn) :
  produces (@raise control e) (ends_round interval).
Proof.
  intros s r s' H. inversion H; subst. exists []. split; [now rewrite app_nil_r |].
  right. right. split; [discriminate | constructor].
Qed.

Lemma ends_round_sleep (interval : Z) :
  produces (bind (time_sleep interval) (fun _ => ret Continue)) (ends_round interval).
Proof.
  intros s r s' H. unfold bind, time_sleep in H.
  destruct (interval <? 0) eqn:Ei.
  - unfold emit, raise in H. inversion H; subst. cbn [events].
    exists [EvSleepFailed interval ValueError]. split; [reflexivity |].
    right. left. exists ValueError, []. repeat split. constructor.
  - destruct (sleep interval (world s)) as [[e |] w]; inversion H; subst; cbn [events].
    + exists [EvSleepFailed interval e]. split; [reflexivity |].
      right. left. exists e, []. repeat split. constructor.
    + exists [EvSleep interval]. split; [reflexivity |].
      left. split; [reflexivity |]. split; [now apply Z.ltb_ge |].
      exists []. split; [reflexivity | constructor].
Qed.

(** The trace of a round: the entry into [get_controllers], then events
    inside the round, then the call of [time.sleep] when the round goes on to
    the next or is ended by that call. *)
Lemma battle_round_trace
    (namespace : string) (interval : Z) (strategy : string) (max_rounds : option Z)
    (round_num : Z) :
  produces (battle_round namespace interval strategy max_rounds round_num)
    (fun r new => exists rest,
         new = EvCall FnGetControllers :: rest /\ ends_round interval r rest).
Proof.
  unfold battle_round.
  apply (produces_bind _ _ (fun r new => new = [] /\ r = Ret tt)
           (fun _ r new => exists rest,
                new = EvCall FnGetControllers :: rest /\ ends_round interval r rest)).
  - intros s r s' H. inversion H; subst. exists []. cbn. now rewrite app_nil_r.
  - intros _.
    apply (produces_bind _ _
             (fun _ new => exists rest,
                  new = EvCall FnGetControllers :: rest /\ Forall inner rest)
             (fun _ => ends_round interval)).
    + apply get_controllers_begins.
    + intros [| controllers pods]; [apply ends_round_raise |].
      repeat first
        [ apply ends_round_break
        | apply ends_round_sleep
        | apply ends_round_bind;
          [ first
              [ apply emits_log
              | apply report_pods_emits; intros; repeat split
              | apply select_emits; intros; repeat split
              | match goal with
                | |- emits _ (match ?x with _ => _ end) => destruct x
                end;
                repeat first
                  [ apply emits_log
                  | apply emits_ret
                  | apply reduce_controller_emits; intros; repeat split
                  | apply emits_bind; [| intros ?] ] ]
          | intros ? ]
        | match goal with
          | |- produces (if ?b then _ else _) _ => destruct b
          | |- produces (let (_, _) := ?x in _) _ => destruct x
          end ].
    + intros e new (rest & -> & Hrest). exists rest. split; [reflexivity |].
      right. right. split; [discriminate | exact Hrest].
    + intros a new1 r new2 (rest & -> & Hrest) H2. exists (rest ++ new2)%list.
      split; [reflexivity | now apply ends_round_app].
  - intros e new [_ H]. discriminate H.
  - intros a new1 r new2 [-> _] H. exact H.
Qed.

Lemma enumerations_app (l1 l2 : list event) :
  enumerations (l1 ++ l2) = (enumerations l1 + enumerations l2)%nat.
Proof. unfold enumerations. now rewrite filter_app, length_app. Qed.

Lemma sleeps_app (l1 l2 : list event) :
  sleeps (l1 ++ l2) = (sleeps l1 + sleeps l2)%nat.
Proof. unfold sleeps. now rewrite filter_app, length_app. Qed.

Lemma sleep_failures_app (l1 l2 : list event) :
  sleep_failures (l1 ++ l2) = (sleep_failures l1 + sleep_failures l2)%nat.
Proof. unfold sleep_failures. now rewrite filter_app, length_app. Qed.

Lemma inner_counts (l : list event) :
  Forall inner l ->
  enumerations l = 0%nat /\ sleeps l = 0%nat /\ sleep_failures l = 0%nat /\
  forall i, Forall (sleeps_for i) l.
Proof.
  induction 1 as [| ev l (Hs & Hf & Hc) _ (IHe & IHs & IHf & IHa)].
  - repeat split. constructor.
  - unfold enumerations, sleeps, sleep_failures in *. cbn [filter]. rewrite Hs, Hf, Hc.
    repeat split; [exact IHe | exact IHs | exact IHf |].
    intros i. constructor; [| apply IHa].
    intros Hev. rewrite Hs in Hev. discriminate Hev.
Qed.

(** A round enters [get_controllers] once and calls [time.sleep] at most
    once, as its last event: the call completes, for the interval, when the
    round goes on to the next one; when it raises, the round raises the
    same. *)
Lemma battle_round_counts
    (namespace : string) (interval : Z) (strategy : string) (max_rounds : option Z)
    (round_num : Z) :
  produces (battle_round namespace interval strategy max_rounds round_num)
    (fun r new =>
       enumerations new = 1%nat /\
       sleeps new = (match r with Ret Continue => 1 | _ => 0 end)%nat /\
       Forall (sleeps_for interval) new /\
       (r = Ret Continue -> 0 <= interval) /\
       (sleep_failures new <= 1)%nat /\
       (sleep_failures new = 1%nat ->
        exists e pre, r = Raise e /\ new = (pre ++ [EvSleepFailed interval e])%list) /\
       (r = Ret Continue -> sleep_failures new = 0%nat)).
Proof.
  apply (produces_weaken _ _ _ (battle_round_trace namespace interval strategy max_rounds round_num)).
  intros r new (rest & -> &
                [(-> & Hi & pre & -> & Hpre) | [(e & pre & -> & -> & Hpre) | (Hr & Hrest)]]).
  - destruct (inner_counts _ Hpre) as (He & Hs & Hf & Ha).
    change (EvCall FnGetControllers :: pre ++ [EvSleep interval])%list
      with ([EvCall FnGetControllers] ++ pre ++ [EvSleep interval])%list.
    rewrite !enumerations_app, !sleeps_app, !sleep_failures_app, He, Hs, Hf.
    cbn [enumerations sleeps sleep_failures filter is_call is_sleep is_sleep_failed
           length Nat.add].
    repeat split; try lia; try (intros _; exact Hi); try discriminate.
    apply Forall_app. split; [constructor; [discriminate | constructor] |].
    apply Forall_app. split; [apply Ha |].
    constructor; [intros _; reflexivity | constructor].
  - destruct (inner_counts _ Hpre) as (He & Hs & Hf & Ha).
    change (EvCall FnGetControllers :: pre ++ [EvSleepFailed interval e])%list
      with ([EvCall FnGetControllers] ++ pre ++ [EvSleepFailed interval e])%list.
    rewrite !enumerations_app, !sleeps_app, !sleep_failures_app, He, Hs, Hf.
    cbn [enumerations sleeps sleep_failures filter is_call is_sleep is_sleep_failed
           length Nat.add].
    repeat split; try lia; try discriminate.
    + apply Forall_app. split; [constructor; [discriminate | constructor] |].
      apply Forall_app. split; [apply Ha |].
      constructor; [discriminate | constructor].
    + intros _. exists e, (EvCall FnGetControllers :: pre). now split.
  - destruct (inner_counts _ Hrest) as (He & Hs & Hf & Ha).
    change (EvCall FnGetControllers :: rest)%list
      with ([EvCall FnGetControllers] ++ rest)%list.
    rewrite !enumerations_app, !sleeps_app, !sleep_failures_app, He, Hs, Hf.
    cbn [enumerations sleeps sleep_failures filter is_call is_sleep is_sleep_failed
           length Nat.add].
    split; [reflexivity |]. split; [| split; [| split; [| split; [| split]]]].
    + destruct r as [[|] |]; try reflexivity. now elim Hr.
    + apply Forall_app. split; [constructor; [discriminate | constructor] | apply Ha].
    + intros ->. now elim Hr.
    + lia.
    + discriminate.
    + reflexivity.
Qed.

Lemma battle_loop_counts
    (namespace : string) (interval : Z) (strategy : string) (max_rounds : option Z)
    (fuel : nat) :
  forall (round_num : Z) (s : state) (r : result unit) (s' : state),
    battle_loop fuel namespace interval strategy max_rounds round_num s = Some (r, s') ->
    exists new, events s' = (events s ++ new)%list /\
                enumerations new = S (sleeps new) /\
                Forall (sleeps_for interval) new /\
                (sleeps new = 0%nat \/ 0 <= interval) /\
                (sleep_failures new <= 1)%nat /\
                (sleep_failures new = 1%nat ->
                 exists e pre, r = Raise e /\
                               new = (pre ++ [EvSleepFailed interval e])%list).
Proof.
  induction fuel as [| fuel IH]; intros round_num s r s' H; [discriminate H |].
  cbn [battle_loop] in H.
  destruct (battle_round namespace interval strategy max_rounds round_num s)
    as [[[|] | e] s1] eqn:E;
    destruct (battle_round_counts _ _ _ _ _ _ _ _ E)
      as (new1 & E1 & He1 & Hs1 & Hf1 & Hi1 & Hn1 & Hl1 & Hc1).
  - inversion H; subst. exists new1. rewrite He1, Hs1.
    split; [exact E1 |]. split; [reflexivity |]. split; [exact Hf1 |].
    split; [now left |]. split; [exact Hn1 |].
    intros Hone. destruct (Hl1 Hone) as (e & pre & Hr & _). discriminate Hr.
  - destruct (IH _ _ _ _ H) as (new2 & E2 & He2 & Hf2 & _ & Hn2 & Hl2).
    exists (new1 ++ new2)%list.
    rewrite enumerations_app, sleeps_app, sleep_failures_app, He1, Hs1, He2,
      (Hc1 eq_refl).
    split; [now rewrite E2, E1, app_assoc |]. split; [reflexivity |].
    split; [now apply Forall_app |]. split; [right; now apply Hi1 |].
    split; [exact Hn2 |].
    intros Hone. destruct (Hl2 Hone) as (e & pre & Hr & ->).
    exists e, (new1 ++ pre)%list. split; [exact Hr | now rewrite app_assoc].
  - inversion H; subst. exists new1. rewrite He1, Hs1.
    split; [exact E1 |]. split; [reflexivity |]. split; [exact Hf1 |].
    split; [now left |]. split; [exact Hn1 |].
    intros Hone. destruct (Hl1 Hone) as (e0 & pre & Hr & Hp).
    injection Hr as ->. exists e0, pre. now split.
Qed.

(** X7.  In a run of [battle] that has ended, however it ended, the calls of
    [time.sleep] that completed are one fewer than the enumerations of the
    namespace: one completed sleep between two rounds, none before the first
    round and none after the last.  Every completed sleep is for the given
    interval, and when there was one the interval is not negative.  At most
    one call of [time.sleep] raised; it was for the interval too, it is the
    last event of the trace, and the run ended with what it raised: so
    [time.sleep] was called at most as often as the namespace was
    enumerated. *)
Theorem X7_battle_sleeps_between_rounds
    (fuel : nat) (namespace : string) (interval : Z) (strategy : string)
    (max_rounds : option Z) (s : state) (r : result unit) (s' : state) :
  battle fuel namespace interval strategy max_rounds s = Some (r, s') ->
  enumerations (since s s') = S (sleeps (since s s')) /\
  Forall (sleeps_for interval) (since s s') /\
  (sleeps (since s s') = 0%nat \/ 0 <= interval) /\
  (sleep_failures (since s s') <= 1)%nat /\
  (sleep_failures (since s s') = 1%nat ->
   exists e pre, r = Raise e /\ since s s' = (pre ++ [EvSleepFailed interval e])%list) /\
  (sleeps (since s s') + sleep_failures (since s s') <= enumerations (since s s'))%nat.
Proof.
  intros H. unfold battle, bind, log in H. cbn [world events logs] in H.
  destruct (battle_loop_counts _ _ _ _ _ _ _ _ _ H) as (new & E & He & Hf & Hi & Hn & Hl).
  cbn [events] in E. rewrite (since_app _ _ _ E).
  repeat split; try assumption. lia.
Qed.

(** X8.  With a negative interval [battle] ends in its first round, whatever
    the namespace holds and whatever the round limit: it enumerates the
    namespace once and never sleeps. *)
Theorem X8_negative_interval_ends_in_first_round
    (fuel : nat) (namespace : string) (interval : Z) (strategy : string)
    (max_rounds : option Z) (s : state) :
  interval < 0 ->
  exists r s',
    battle (S fuel) namespace interval strategy max_rounds s = Some (r, s') /\
    enumerations (since s s') = 1%nat /\ sleeps (since s s') = 0%nat.
Proof.
  intros Hi. unfold battle, bind, log. cbn [world events logs battle_loop].
  match goal with
  | |- context [battle_round ?a ?b ?c ?d ?n ?s0] =>
      destruct (battle_round a b c d n s0) as [[[|] | e] s1] eqn:E;
      destruct (battle_round_counts _ _ _ _ _ _ _ _ E) as (new1 & E1 & He1 & Hs1 & _ & Hi1 & _)
  end; cbn [events] in E1.
  - exists (Ret tt), s1. rewrite (since_app _ _ _ E1). now repeat split.
  - specialize (Hi1 eq_refl). lia.
  - exists (Raise e), s1. rewrite (since_app _ _ _ E1). now repeat split.
Qed.


(** ** Further properties: the last pod *)

(** X11.  A round that finds one controller and one pod selects and reduces
    nothing: it reports the pod and then either names that pod the winner in
    its last log line and ends the loop, or is interrupted in the metrics of
    the pod by an exception that is no [Exception]. *)
Theorem X11_last_pod_is_declared_winner
    (namespace : string) (interval : Z) (strategy : string) (max_rounds : option Z)
    (round_num : Z) (s : state) (controller pod : string) (s1 : state)
    (r : result control) (s' : state) :
  get_controllers namespace (logged INFO (MsgRound round_num) s)
  = (Ret (Pair [controller] [pod]), s1) ->
  battle_round namespace interval strategy max_rounds round_num s = (r, s') ->
  Forall no_reduction (since s s') /\
  ((r = Ret Break /\ exists l, logs s' = (l ++ [(INFO, MsgWinnerPod pod)])%list) \/
   (exists e, r = Raise e /\ is_Exception e = false)).
Proof.
  intros Henum H. unfold battle_round in H.
  apply bind_inv in H as [(u & s0 & E0 & H) | (e & E0 & _)]; [| discriminate].
  inversion E0; subst u s0; clear E0. unfold logged in Henum.
  apply bind_inv in H as [(a & sx & E & H) | (e & E & _)];
    rewrite Henum in E; [| discriminate].
  inversion E; subst a sx; clear E.
  destruct (get_controllers_enumerating namespace _ _ _ Henum) as (new1 & Ev1 & Hn1).
  cbn [events] in Ev1.
  assert (Hq1 : Forall no_reduction new1).
  { apply (Forall_impl _ (P := enumerating)); [| exact Hn1].
    intros ev (Hs & Hr & _ & Hsc). now repeat split. }
  cbn [is_nil length Nat.eqb Nat.leb andb] in H.
  apply bind_inv in H as [(u & s2 & E2 & H) | (e & E2 & _)]; [| discriminate].
  inversion E2; subst u s2; clear E2.
  apply bind_inv in H as [(u & s3 & E3 & H) | (e & E3 & _)]; [| discriminate].
  inversion E3; subst u s3; clear E3.
  apply bind_inv in H as [(u & s4 & E4 & H) | (e & E4 & ->)].
  - destruct (report_pods_emits no_reduction namespace [pod]
                ltac:(now repeat split) ltac:(intros; now repeat split)
                ltac:(intros; now repeat split) _ _ _ E4) as (new2 & Ev2 & Hn2).
    cbn [events] in Ev2.
    inversion H; subst r s'; clear H.
    rewrite (since_app s _ (new1 ++ new2));
      [| cbn [events]; now rewrite Ev2, Ev1, app_assoc].
    split; [now apply Forall_app |]. left. split; [reflexivity |].
    cbn [logs]. eauto.
  - destruct (report_pods_emits no_reduction namespace [pod]
                ltac:(now repeat split) ltac:(intros; now repeat split)
                ltac:(intros; now repeat split) _ _ _ E4) as (new2 & Ev2 & Hn2).
    cbn [events] in Ev2.
    assert (Ev : events s' = (events s ++ (new1 ++ new2))%list)
      by (now rewrite Ev2, Ev1, app_assoc).
    rewrite (since_app s _ _ Ev).
    split; [now apply Forall_app |]. right. exists e. split; [reflexivity |].
    exact (report_pods_interrupted _ _ _ _ _ E4).
Qed.


(** ** Further properties: the log *)

Lemma says_bind {A B : Type} (m : M A) (k : A -> M B)
    (Q1 : result A -> list (level * message) -> Prop)
    (Q2 : A -> result B -> list (level * message) -> Prop)
    (Q : result B -> list (level * message) -> Prop) :
  says m Q1 ->
  (forall a, says (k a) (Q2 a)) ->
  (forall e new, Q1 (Raise e) new -> Q (Raise e) new) ->
  (forall a new1 r new2, Q1 (Ret a) new1 -> Q2 a r new2 -> Q r (new1 ++ new2)%list) ->
  says (bind m k) Q.
Proof.
  intros Hm Hk Hraise Hret s r s' H. unfold bind in H.
  destruct (m s) as [[a | e] s1] eqn:E.
  - destruct (Hm _ _ _ E) as (new1 & E1 & H1).
    destruct (Hk a _ _ _ H) as (new2 & E2 & H2).
    exists (new1 ++ new2)%list. split; [now rewrite E2, E1, app_assoc | eauto].
  - inversion H; subst. destruct (Hm _ _ _ E) as (new1 & E1 & H1). eauto.
Qed.

Lemma says_weaken {A : Type} (m : M A) (Q Q' : result A -> list (level * message) -> Prop) :
  says m Q -> (forall r new, Q r new -> Q' r new) -> says m Q'.
Proof.
  intros Hm HQ s r s' H. destruct (Hm _ _ _ H) as (new & E & HQn). eauto.
Qed.

Lemma says_log (l : level) (msg : message)
    (Q : result unit -> list (level * message) -> Prop) :
  Q (Ret tt) [(l, msg)] -> says (log l msg) Q.
Proof. intros HQ s r s' H. inversion H; subst. exists [(l, msg)]. now cbn. Qed.

Lemma writes_ret {A : Type} (P : level * message -> Prop) (a : A) : writes P (ret a).
Proof.
  intros s r s' H. inversion H; subst. exists []. split; [now rewrite app_nil_r | constructor].
Qed.

Lemma writes_raise {A : Type} (P : level * message -> Prop) (e : exn) :
  writes P (@raise A e).
Proof.
  intros s r s' H. inversion H; subst. exists []. split; [now rewrite app_nil_r | constructor].
Qed.

Lemma writes_log (P : level * message -> Prop) (l : level) (msg : message) :
  P (l, msg) -> writes P (log l msg).
Proof. intros HP. apply says_log. now repeat constructor. Qed.

Lemma writes_enter (P : level * message -> Prop) (f : fn) : writes P (enter f).
Proof.
  intros s r s' H. inversion H; subst. exists []. cbn.
  split; [now rewrite app_nil_r | constructor].
Qed.

Lemma writes_bind {A B : Type} (P : level * message -> Prop) (m : M A) (k : A -> M B) :
  writes P m -> (forall a, writes P (k a)) -> writes P (bind m k).
Proof.
  intros Hm Hk.
  apply (says_bind m k (fun _ new => Forall P new) (fun _ _ new => Forall P new)); auto.
  intros. now apply Forall_app.
Qed.

Lemma writes_try_step {A B : Type} (P : level * message -> Prop)
    (m : M A) (handler : exn -> M B) (k : A -> M B) :
  writes P m -> (forall e, writes P (handler e)) -> (forall a, writes P (k a)) ->
  writes P (try_step m handler k).
Proof.
  intros Hm Hh Hk s r s' H. unfold try_step in H.
  destruct (m s) as [[a | e] s1] eqn:E; destruct (Hm _ _ _ E) as (new1 & E1 & H1).
  - destruct (Hk a _ _ _ H) as (new2 & E2 & H2).
    exists (new1 ++ new2)%list. split; [now rewrite E2, E1, app_assoc | now apply Forall_app].
  - destruct (is_Exception e).
    + destruct (Hh e _ _ _ H) as (new2 & E2 & H2).
      exists (new1 ++ new2)%list.
      split; [now rewrite E2, E1, app_assoc | now apply Forall_app].
    + inversion H; subst. eauto.
Qed.

Lemma writes_run_command (P : level * message -> Prop) (cmd : cmdarg) (shell : bool) :
  P (ERROR, MsgCommandFailed) -> (forall err, P (DEBUG, MsgErrorOutput err)) ->
  writes P (run_command cmd shell).
Proof.
  intros H1 H2. unfold run_command. apply writes_bind.
  - intros s r s' H. unfold subprocess_run in H.
    destruct (exec cmd shell (world s)) as [r0 w]. inversion H; subst.
    exists []. cbn. split; [now rewrite app_nil_r | constructor].
  - intros [out | err | e].
    + apply writes_ret.
    + apply writes_bind; [now apply writes_log | intros _].
      apply writes_bind; [now apply writes_log | intros _]. apply writes_ret.
    + apply writes_raise.
Qed.

Lemma writes_read_clock (P : level * message -> Prop) : writes P read_clock.
Proof.
  intros s r s' H. unfold read_clock in H.
  destruct (utcnow (world s)) as [t w]. inversion H; subst.
  exists []. cbn. split; [now rewrite app_nil_r | constructor].
Qed.

Lemma writes_random_choice (P : level * message -> Prop) (seq : list string) :
  writes P (random_choice seq).
Proof.
  destruct seq as [| x seq]; [apply writes_raise |].
  intros s r s' H. unfold random_choice in H.
  destruct (rand (world s)) as [n w]. inversion H; subst.
  exists []. cbn. split; [now rewrite app_nil_r | constructor].
Qed.

Lemma writes_time_sleep (P : level * message -> Prop) (secs : Z) :
  writes P (time_sleep secs).
Proof.
  unfold time_sleep. destruct (secs <? 0).
  - apply writes_bind; [| intros _; apply writes_raise].
    intros s r s' H. inversion H; subst. exists []. cbn.
    split; [now rewrite app_nil_r | constructor].
  - intros s r s' H. destruct (sleep secs (world s)) as [[e |] w]; inversion H; subst;
      exists []; cbn; (split; [now rewrite app_nil_r | constructor]).
Qed.

Lemma writes_int (P : level * message -> Prop) (digits : string) : writes P (int digits).
Proof. unfold int. destruct (py_int digits); [apply writes_ret | apply writes_raise]. Qed.

(** The functions that [battle] calls write none of its lines. *)
Lemma get_controllers_below (namespace : string) :
  writes below_battle (get_controllers namespace).
Proof.
  unfold get_controllers.
  repeat first
    [ apply writes_ret
    | apply writes_log; split; cbn; discriminate
    | apply writes_enter
    | apply writes_run_command; intros; split; cbn; discriminate
    | apply writes_bind; [| intros ?]
    | match goal with
      | |- writes _ (if ?b then _ else _) => destruct b
      end ].
Qed.

Lemma get_pod_metrics_below (pod_name namespace : string) :
  writes below_battle (get_pod_metrics pod_name namespace).
Proof.
  unfold get_pod_metrics, metrics_failed.
  repeat first
    [ apply writes_ret
    | apply writes_log; split; cbn; discriminate
    | apply writes_enter
    | apply writes_run_command; intros; split; cbn; discriminate
    | apply writes_read_clock
    | apply writes_bind; [| intros ?]
    | apply writes_try_step; [| intros ? | intros ?]
    | match goal with
      | |- writes _ (match ?x with _ => _ end) => destruct x
      end ].
Qed.

Lemma select_below (controllers : list string) (namespace strategy : string) :
  writes below_battle (select_controller_for_reduction controllers namespace strategy).
Proof.
  unfold select_controller_for_reduction.
  repeat first
    [ apply writes_ret
    | apply writes_enter
    | apply writes_run_command; intros; split; cbn; discriminate
    | apply writes_random_choice
    | apply writes_bind; [| intros ?]
    | match goal with
      | |- writes _ (if ?b then _ else _) => destruct b
      end ].
Qed.

Lemma reduce_controller_below
    (controller_name : option string) (namespace : string) (controller_type : option string) :
  writes below_battle (reduce_controller controller_name namespace controller_type).
Proof.
  unfold reduce_controller.
  repeat first
    [ apply writes_ret
    | apply writes_log; split; cbn; discriminate
    | apply writes_int
    | apply writes_enter
    | apply writes_run_command; intros; split; cbn; discriminate
    | apply writes_bind; [| intros ?]
    | match goal with
      | |- writes _ (if ?b then _ else _) => destruct b
      | |- writes _ (match ?x with _ => _ end) => destruct x
      end ].
Qed.

Lemma pod_lines_app (l1 l2 : list (level * message)) :
  pod_lines (l1 ++ l2) = (pod_lines l1 ++ pod_lines l2)%list.
Proof. apply flat_map_app. Qed.

Lemma round_lines_app (l1 l2 : list (level * message)) :
  round_lines (l1 ++ l2) = (round_lines l1 ++ round_lines l2)%list.
Proof. apply flat_map_app. Qed.

Lemma below_battle_lines (l : list (level * message)) :
  Forall below_battle l -> pod_lines l = [] /\ Forall within_round l.
Proof.
  induction 1 as [| [lv msg] l [Hb Hm] _ [IHp IHw]]; [split; constructor |].
  cbn [snd] in Hb, Hm.
  split.
  - cbn [pod_lines flat_map snd]. fold (pod_lines l). rewrite IHp.
    destruct msg; try reflexivity; now elim Hb.
  - constructor; [| exact IHw].
    destruct msg; try (split; reflexivity); now elim Hb.
Qed.

Lemma within_round_lines (l : list (level * message)) :
  Forall within_round l ->
  round_lines l = [] /\ forall lv c, ~ In (lv, MsgWinnerController c) l.
Proof.
  induction 1 as [| lm l [Hr Hw] _ [IHr IHw]]; [split; [reflexivity | intros lv c []] |].
  split.
  - change (lm :: l) with ([lm] ++ l)%list. now rewrite round_lines_app, Hr, IHr.
  - intros lv c [-> | Hin]; [discriminate Hw | exact (IHw _ _ Hin)].
Qed.

(** X13.  The loop over the pods writes one metrics line for each pod, in the
    order of the list: all of them when it returns, and those of the pods
    before the interrupted one when it raises. *)
Theorem X13_report_pods_one_line_per_pod
    (namespace : string) (pods : list string) (s : state) (r : result unit) (s' : state) :
  report_pods namespace pods s = (r, s') ->
  match r with
  | Ret _ => pod_lines (logged_since s s') = pods
  | Raise _ =>
      exists n, (n < length pods)%nat /\ pod_lines (logged_since s s') = firstn n pods
  end.
Proof.
  intros H.
  assert (Hs : says (report_pods namespace pods)
                 (fun r new =>
                    match r with
                    | Ret _ => pod_lines new = pods
                    | Raise _ =>
                        exists n, (n < length pods)%nat /\ pod_lines new = firstn n pods
                    end)).
  { clear. induction pods as [| pod rest IH]; cbn [report_pods].
    - intros s r s' H. inversion H; subst. exists []. now rewrite app_nil_r.
    - apply (says_bind _ _ (fun _ new => pod_lines new = [])
               (fun _ r new =>
                  match r with
                  | Ret _ => pod_lines new = pod :: rest
                  | Raise _ =>
                      exists n, (n < length rest)%nat /\
                                pod_lines new = pod :: firstn n rest
                  end)).
      + apply (says_weaken _ _ _ (get_pod_metrics_below pod namespace)).
        intros r new Hb. now apply below_battle_lines.
      + intros m.
        apply (says_bind _ _ (fun r new => pod_lines new = [pod] /\ r = Ret tt)
                 (fun _ r new =>
                    match r with
                    | Ret _ => pod_lines new = rest
                    | Raise _ =>
                        exists n, (n < length rest)%nat /\ pod_lines new = firstn n rest
                    end)).
        * apply says_log. now split.
        * intros _. exact IH.
        * intros e new [_ He]. discriminate He.
        * intros a new1 r new2 [H1 _] H2. rewrite pod_lines_app, H1.
          destruct r as [u | e]; [now rewrite H2 |].
          destruct H2 as (n & Hn & ->). now exists n.
      + intros e new Hn. exists 0%nat. split; [cbn; lia | exact Hn].
      + intros a new1 r new2 H1 H2. rewrite pod_lines_app, H1. cbn [app].
        destruct r as [u | e]; [exact H2 |].
        destruct H2 as (n & Hn & ->). exists (S n). split; [cbn; lia | reflexivity]. }
  destruct (Hs _ _ _ H) as (new & E & Hnew).
  now rewrite (logged_since_app _ _ _ E).
Qed.


Lemma writes_below_within {A : Type} (m : M A) :
  writes below_battle m -> writes within_round m.
Proof.
  intros Hm. apply (says_weaken _ _ _ Hm). intros r new Hb.
  now apply below_battle_lines.
Qed.

Lemma report_pods_within (namespace : string) (pods : list string) :
  writes within_round (report_pods namespace pods).
Proof.
  induction pods as [| pod rest IH]; cbn [report_pods]; [apply writes_ret |].
  apply writes_bind; [apply writes_below_within, get_pod_metrics_below | intros m].
  apply writes_bind; [apply writes_log; split; reflexivity | intros _]. exact IH.
Qed.

(** The log of a round: the line that announces it, then lines that neither
    announce a round nor name a controller as the winner. *)
Lemma battle_round_log
    (namespace : string) (interval : Z) (strategy : string) (max_rounds : option Z)
    (round_num : Z) :
  says (battle_round namespace interval strategy max_rounds round_num)
    (fun _ new => exists rest,
         new = (INFO, MsgRound round_num) :: rest /\ Forall within_round rest).
Proof.
  unfold battle_round.
  apply (says_bind _ _ (fun r new => new = [(INFO, MsgRound round_num)] /\ r = Ret tt)
           (fun _ _ new => Forall within_round new)).
  - apply says_log. now split.
  - intros _. cbv beta.
    match goal with |- says ?m _ => change (writes within_round m) end.
    apply writes_bind; [apply writes_below_within, get_controllers_below |].
    intros [| controllers pods]; [apply writes_raise |].
    destruct pods as [| pod pods]; cbn [is_nil]; cbv beta iota.
    + destruct (is_nil controllers);
        (apply writes_bind; [apply writes_log; split; reflexivity | intros _]);
        apply writes_ret.
    + repeat first
        [ apply writes_ret
        | apply writes_log; split; reflexivity
        | apply writes_time_sleep
        | apply report_pods_within
        | apply writes_below_within, select_below
        | apply writes_below_within, reduce_controller_below
        | apply writes_bind; [| intros ?]
        | match goal with
          | |- writes _ (if ?b then _ else _) => destruct b
          | |- writes _ (let (_, _) := ?x in _) => destruct x
          end ].
  - intros e new [_ He]. discriminate He.
  - intros a new1 r new2 [-> _] H2. exists new2. now split.
Qed.

(** The rounds of the loop are announced with consecutive numbers, one for
    each enumeration, and no line names a controller as the winner. *)
Lemma battle_loop_log
    (namespace : string) (interval : Z) (strategy : string) (max_rounds : option Z)
    (fuel : nat) :
  forall (round_num : Z) (s : state) (r : result unit) (s' : state),
    battle_loop fuel namespace interval strategy max_rounds round_num s = Some (r, s') ->
    exists newe newl,
      events s' = (events s ++ newe)%list /\ logs s' = (logs s ++ newl)%list /\
      round_lines newl
      = map (fun i => round_num + Z.of_nat i) (seq 0 (enumerations newe)) /\
      forall lv c, ~ In (lv, MsgWinnerController c) newl.
Proof.
  induction fuel as [| fuel IH]; intros round_num s r s' H; [discriminate H |].
  cbn [battle_loop] in H.
  assert (Hone : forall rc s1,
             battle_round namespace interval strategy max_rounds round_num s = (rc, s1) ->
             exists newe newl,
               events s1 = (events s ++ newe)%list /\ logs s1 = (logs s ++ newl)%list /\
               enumerations newe = 1%nat /\ round_lines newl = [round_num] /\
               forall lv c, ~ In (lv, MsgWinnerController c) newl).
  { intros rc s1 E.
    destruct (battle_round_counts _ _ _ _ _ _ _ _ E) as (newe & Ee & He & _).
    destruct (battle_round_log _ _ _ _ _ _ _ _ E) as (newl & El & rest & -> & Hrest).
    destruct (within_round_lines _ Hrest) as [Hr Hw].
    exists newe, ((INFO, MsgRound round_num) :: rest).
    repeat split; try assumption.
    - change ((INFO, MsgRound round_num) :: rest)
        with ([(INFO, MsgRound round_num)] ++ rest)%list.
      now rewrite round_lines_app, Hr.
    - intros lv c [Hin | Hin]; [discriminate Hin | exact (Hw _ _ Hin)]. }
  destruct (battle_round namespace interval strategy max_rounds round_num s)
    as [[[|] | e] s1] eqn:E;
    destruct (Hone _ _ eq_refl) as (newe1 & newl1 & Ee1 & El1 & He1 & Hr1 & Hw1).
  - inversion H; subst. exists newe1, newl1. rewrite He1, Hr1. cbn.
    rewrite Z.add_0_r. now repeat split.
  - destruct (IH _ _ _ _ H) as (newe2 & newl2 & Ee2 & El2 & Hr2 & Hw2).
    exists (newe1 ++ newe2)%list, (newl1 ++ newl2)%list.
    rewrite Ee2, Ee1, El2, El1, !app_assoc.
    repeat split.
    + rewrite round_lines_app, enumerations_app, Hr1, Hr2, He1.
      cbn [Nat.add seq map app]. rewrite Z.add_0_r. f_equal.
      rewrite <- seq_shift, map_map. apply map_ext. intros i. lia.
    + intros lv c Hin. apply in_app_or in Hin as [Hin | Hin];
        [exact (Hw1 _ _ Hin) | exact (Hw2 _ _ Hin)].
  - inversion H; subst. exists newe1, newl1. rewrite He1, Hr1. cbn.
    rewrite Z.add_0_r. now repeat split.
Qed.

(** X14.  In a run of [battle] that has ended the rounds are announced in the
    log with the numbers 1, 2, 3 and so on, in order and without a gap, and
    there are as many of them as enumerations of the namespace in the
    trace. *)
Theorem X14_rounds_are_numbered_from_one
    (fuel : nat) (namespace : string) (interval : Z) (strategy : string)
    (max_rounds : option Z) (s : state) (r : result unit) (s' : state) :
  battle fuel namespace interval strategy max_rounds s = Some (r, s') ->
  round_lines (logged_since s s')
  = map Z.of_nat (seq 1 (enumerations (since s s'))).
Proof.
  intros H. unfold battle, bind, log in H. cbn [world events logs] in H.
  destruct (battle_loop_log _ _ _ _ _ _ _ _ _ H) as (newe & newl & Ee & El & Hr & _).
  cbn [events logs] in Ee, El. rewrite <- !app_assoc in El.
  rewrite (since_app _ _ _ Ee), (logged_since_app _ _ _ El).
  rewrite !round_lines_app, Hr. cbn [round_lines flat_map snd app].
  rewrite <- seq_shift, map_map. apply map_ext. intros i. lia.
Qed.

(** X12.  No run of the script that has ended wrote a line that names a
    controller as the winner, whatever the namespace held: the branch of
    [battle] that would write it is never taken. *)
Theorem X12_no_controller_is_named_winner
    (fuel : nat) (namespace : string) (interval : Z) (strategy : string)
    (max_rounds : option Z) (s : state) (r : result unit) (s' : state) :
  main fuel namespace interval strategy max_rounds s = Some (r, s') ->
  forall lv c, ~ In (lv, MsgWinnerController c) (logged_since s s').
Proof.
  intros H lv c. unfold main in H.
  destruct (battle fuel namespace interval strategy max_rounds s) as [[rb sb] |] eqn:Eb;
    [| discriminate H].
  unfold battle, bind, log in Eb. cbn [world events logs] in Eb.
  destruct (battle_loop_log _ _ _ _ _ _ _ _ _ Eb) as (newe & newl & _ & El & _ & Hw).
  cbn [logs] in El. rewrite <- !app_assoc in El.
  assert (Hh : exists last, logs s' = (logs sb ++ last)%list /\
                            ~ In (lv, MsgWinnerController c) last).
  { destruct rb as [u | [| | | |]]; inversion H; subst; cbn [logs];
      first [ exists []; split; [now rewrite app_nil_r | intros []]
            | eexists [_]; split; [reflexivity |];
              intros [Hin | []]; discriminate Hin ]. }
  destruct Hh as (last & Es & Hlast).
  rewrite El, <- !app_assoc in Es. rewrite (logged_since_app _ _ _ Es).
  cbn [app]. intros [Hin | [Hin | Hin]]; try discriminate Hin.
  apply in_app_or in Hin as [Hin | Hin]; [exact (Hw _ _ Hin) | exact (Hlast Hin)].
Qed.


(** ** Further properties: the names in a listing *)




Lemma string_all_split (f : ascii -> bool) (c : ascii) (s : string) :
  string_all f s = true -> Forall (fun p => string_all f p = true) (py_split c s).
Proof using Type.
  clear. induction s as [| d r IH]; cbn [py_split string_all]; intros H.
  - now repeat constructor.
  - apply andb_prop in H as [Hd Hr]. specialize (IH Hr).
    destruct (Ascii.eqb d c); [now constructor |].
    destruct (py_split c r) as [| h t]; [now repeat constructor; cbn; rewrite Hd |].
    inversion IH; subst. constructor; [cbn; now rewrite Hd | assumption].
Qed.

Lemma py_split_pieces (c : ascii) (s : string) :
  Forall (fun p => string_all (fun d => negb (Ascii.eqb d c)) p = true) (py_split c s).
Proof using Type.
  clear. induction s as [| d r IH]; cbn [py_split].
  - now repeat constructor.
  - destruct (Ascii.eqb d c) eqn:E; [now constructor |].
    destruct (py_split c r) as [| h t]; [repeat constructor; cbn; now rewrite E |].
    inversion IH; subst. constructor; [cbn; now rewrite E | assumption].
Qed.

Lemma py_remove_all (c : ascii) (s : string) :
  string_all (fun d => negb (Ascii.eqb d c)) (py_remove c s) = true.
Proof using Type.
  clear. induction s as [| d r IH]; [reflexivity |]. cbn [py_remove].
  destruct (Ascii.eqb d c) eqn:E; [exact IH |]. cbn [string_all]. now rewrite E.
Qed.

(** A name in a listing holds neither a quote nor a newline. *)
Lemma names_of_chars (out name : string) :
  In name (names_of out) -> string_all is_name_char name = true.
Proof using Type.
  clear. unfold names_of. intros Hin.
  pose proof (py_split_pieces nl (py_remove quote out)) as Hnl.
  pose proof (string_all_split _ nl _ (py_remove_all quote out)) as Hq.
  rewrite Forall_forall in Hnl, Hq. specialize (Hnl _ Hin). specialize (Hq _ Hin).
  clear Hin. induction name as [| d r IH]; [reflexivity |].
  cbn [string_all] in *.
  apply andb_prop in Hnl as [Hn1 Hn2]. apply andb_prop in Hq as [Hq1 Hq2].
  rewrite (IH Hn2 Hq2), andb_true_r.
  unfold is_name_char, is_separator. now rewrite negb_orb, Hn1, Hq1.
Qed.


(** X10.  No name that an enumeration returns, of a controller or of a pod,
    holds a quote or a newline. *)
Theorem X10_enumerated_names_hold_no_separator
    (namespace : string) (s : state) (controllers pods : list string) (s' : state)
    (name : string) :
  get_controllers namespace s = (Ret (Pair controllers pods), s') ->
  In name controllers \/ In name pods ->
  string_all is_name_char name = true.
Proof using Type.
  clear rand utcnow sleep strptime py_isdigit py_int.
  intros H Hin.
  destruct (get_controllers_result _ _ _ _ _ H)
    as (prn & prd & prt & prr & prp & _ & _ & Hc & Hp).
  destruct Hin as [Hin | Hin].
  - rewrite Hc, combine_controllers_flat_map in Hin.
    apply in_flat_map in Hin as (o & _ & Hin).
    destruct (nonempty o); [exact (names_of_chars _ _ Hin) | destruct Hin].
  - rewrite Hp in Hin. apply filter_In in Hin as [Hin _].
    exact (names_of_chars _ _ Hin).
Qed.


(** ** Further properties: the interrupt *)

Lemma stops_quiet {A : Type} (m : M A) :
  emits (fun ev => is_interrupt ev = false) m -> produces m stops_at_interrupt.
Proof.
  intros Hm. apply (produces_weaken _ _ _ Hm). intros r new H. now left.
Qed.

Lemma stops_app {A B : Type} (a : A) (r : result B) (new1 new2 : list event) :
  stops_at_interrupt (Ret a) new1 -> stops_at_interrupt r new2 ->
  stops_at_interrupt r (new1 ++ new2).
Proof.
  intros [H1 | (H1 & _)] H2; [| discriminate H1].
  destruct H2 as [H2 | (-> & pre & ev & -> & Hev & Hpre)].
  - left. now apply Forall_app.
  - right. split; [reflexivity |]. exists (new1 ++ pre)%list, ev.
    split; [now rewrite app_assoc |]. split; [exact Hev | now apply Forall_app].
Qed.

Lemma stops_bind {A B : Type} (m : M A) (k : A -> M B) :
  produces m stops_at_interrupt ->
  (forall a, produces (k a) stops_at_interrupt) ->
  produces (bind m k) stops_at_interrupt.
Proof.
  intros Hm Hk.
  apply (produces_bind m k stops_at_interrupt (fun _ => stops_at_interrupt));
    [exact Hm | exact Hk | |].
  - intros e new [H | (H & Hx)]; [now left |]. right. split; [| exact Hx].
    now inversion H.
  - intros a new1 r new2. apply stops_app.
Qed.

Lemma stops_try_step {A B : Type} (m : M A) (handler : exn -> M B) (k : A -> M B) :
  produces m stops_at_interrupt ->
  (forall e, produces (handler e) stops_at_interrupt) ->
  (forall a, produces (k a) stops_at_interrupt) ->
  produces (try_step m handler k) stops_at_interrupt.
Proof.
  intros Hm Hh Hk s r s' H. unfold try_step in H.
  destruct (m s) as [[a | e] s1] eqn:E; destruct (Hm _ _ _ E) as (new1 & E1 & H1).
  - destruct (Hk a _ _ _ H) as (new2 & E2 & H2).
    exists (new1 ++ new2)%list. split; [now rewrite E2, E1, app_assoc |].
    exact (stops_app _ _ _ _ H1 H2).
  - destruct (is_Exception e) eqn:Ee.
    + destruct (Hh e _ _ _ H) as (new2 & E2 & H2).
      exists (new1 ++ new2)%list. split; [now rewrite E2, E1, app_assoc |].
      apply (stops_app tt); [| exact H2].
      destruct H1 as [H1 | (H1 & _)]; [now left |].
      inversion H1; subst. discriminate Ee.
    + inversion H; subst. exists new1. split; [exact E1 |].
      destruct H1 as [H1 | (H1 & Hx)]; [now left |]. right. split; [| exact Hx].
      now inversion H1.
Qed.

Lemma stops_run_command (cmd : cmdarg) (shell : bool) :
  produces (run_command cmd shell) stops_at_interrupt.
Proof.
  intros s r s' H. pose proof (run_command_cases cmd shell s) as Hc.
  destruct (exec cmd shell (world s)) as [[stdout | stderr | e] w];
    rewrite Hc in H; inversion H; subst; cbn [events];
    eexists [_]; (split; [reflexivity |]).
  - left. now repeat constructor.
  - left. now repeat constructor.
  - destruct e; try (left; now repeat constructor).
    right. split; [reflexivity |]. eexists [], _. now repeat split.
Qed.

Lemma get_controllers_stops (namespace : string) :
  produces (get_controllers namespace) stops_at_interrupt.
Proof.
  unfold get_controllers.
  repeat first
    [ apply stops_run_command
    | apply stops_quiet, emits_ret
    | apply stops_quiet, emits_log
    | apply stops_quiet, emits_enter; reflexivity
    | apply stops_bind; [| intros ?]
    | match goal with
      | |- produces (if ?b then _ else _) _ => destruct b
      end ].
Qed.

Lemma get_pod_metrics_stops (pod_name namespace : string) :
  produces (get_pod_metrics pod_name namespace) stops_at_interrupt.
Proof.
  unfold get_pod_metrics, metrics_failed.
  repeat first
    [ apply stops_run_command
    | apply stops_quiet, emits_ret
    | apply stops_quiet, emits_log
    | apply stops_quiet, emits_enter; reflexivity
    | apply stops_quiet, emits_read_clock; reflexivity
    | apply stops_bind; [| intros ?]
    | apply stops_try_step; [| intros ? | intros ?]
    | match goal with
      | |- produces (match ?x with _ => _ end) _ => destruct x
      end ].
Qed.

Lemma report_pods_stops (namespace : string) (pods : list string) :
  produces (report_pods namespace pods) stops_at_interrupt.
Proof.
  induction pods as [| pod rest IH]; cbn [report_pods]; [apply stops_quiet, emits_ret |].
  apply stops_bind; [apply get_pod_metrics_stops | intros m].
  apply stops_bind; [apply stops_quiet, emits_log | intros _]. exact IH.
Qed.

Lemma select_stops (controllers : list string) (namespace strategy : string) :
  produces (select_controller_for_reduction controllers namespace strategy)
    stops_at_interrupt.
Proof.
  unfold select_controller_for_reduction.
  repeat first
    [ apply stops_run_command
    | apply stops_quiet, emits_ret
    | apply stops_quiet, emits_enter; reflexivity
    | apply stops_quiet, emits_random_choice; reflexivity
    | apply stops_bind; [| intros ?]
    | match goal with
      | |- produces (if ?b then _ else _) _ => destruct b
      end ].
Qed.

Lemma reduce_controller_stops
    (controller_name : option string) (namespace : string) (controller_type : option string) :
  produces (reduce_controller controller_name namespace controller_type)
    stops_at_interrupt.
Proof.
  unfold reduce_controller.
  repeat first
    [ apply stops_run_command
    | apply stops_quiet, emits_ret
    | apply stops_quiet, emits_log
    | apply stops_quiet, emits_int
    | apply stops_quiet, emits_enter; reflexivity
    | apply stops_bind; [| intros ?]
    | match goal with
      | |- produces (if ?b then _ else _) _ => destruct b
      | |- produces (match ?x with _ => _ end) _ => destruct x
      end ].
Qed.

Lemma battle_round_stops
    (namespace : string) (interval : Z) (strategy : string) (max_rounds : option Z)
    (round_num : Z) :
  produces (battle_round namespace interval strategy max_rounds round_num)
    stops_at_interrupt.
Proof.
  unfold battle_round.
  repeat first
    [ apply get_controllers_stops
    | apply report_pods_stops
    | apply select_stops
    | apply reduce_controller_stops
    | apply stops_quiet, emits_ret
    | apply stops_quiet, emits_raise
    | apply stops_quiet, emits_log
    | apply stops_quiet, emits_time_sleep; intros; reflexivity
    | apply stops_bind; [| intros ?]
    | match goal with
      | |- produces (if ?b then _ else _) _ => destruct b
      | |- produces (let (_, _) := ?x in _) _ => destruct x
      | |- produces (match ?x with _ => _ end) _ => destruct x
      end ].
Qed.

Lemma battle_loop_stops
    (namespace : string) (interval : Z) (strategy : string) (max_rounds : option Z)
    (fuel : nat) :
  forall (round_num : Z) (s : state) (r : result unit) (s' : state),
    battle_loop fuel namespace interval strategy max_rounds round_num s = Some (r, s') ->
    exists new, events s' = (events s ++ new)%list /\ stops_at_interrupt r new.
Proof.
  induction fuel as [| fuel IH]; intros round_num s r s' H; [discriminate H |].
  cbn [battle_loop] in H.
  destruct (battle_round namespace interval strategy max_rounds round_num s)
    as [[[|] | e] s1] eqn:E;
    destruct (battle_round_stops _ _ _ _ _ _ _ _ E) as (new1 & E1 & H1).
  - inversion H; subst. exists new1. split; [exact E1 |].
    destruct H1 as [H1 | (H1 & _)]; [now left | discriminate H1].
  - destruct (IH _ _ _ _ H) as (new2 & E2 & H2).
    exists (new1 ++ new2)%list. split; [now rewrite E2, E1, app_assoc |].
    exact (stops_app _ _ _ _ H1 H2).
  - inversion H; subst. exists new1. split; [exact E1 |].
    destruct H1 as [H1 | (H1 & Hx)]; [now left |]. right. split; [| exact Hx].
    now inversion H1.
Qed.

(** X15.  An interrupt stops the script at once: when a command of a run was
    interrupted, it is the last event of the trace, nothing was caught on the
    way, and the last line of the log says that the battle was stopped by the
    user; the script then ends normally. *)
Theorem X15_interrupt_stops_the_run
    (fuel : nat) (namespace : string) (interval : Z) (strategy : string)
    (max_rounds : option Z) (s : state) (r : result unit) (s' : state)
    (ev : event) :
  main fuel namespace interval strategy max_rounds s = Some (r, s') ->
  In ev (since s s') -> is_interrupt ev = true ->
  r = Ret tt /\
  (exists pre, since s s' = (pre ++ [ev])%list /\
               Forall (fun ev => is_interrupt ev = false) pre) /\
  exists l, logs s' = (l ++ [(INFO, MsgStopped)])%list.
Proof.
  intros H Hin Hev. unfold main in H.
  destruct (battle fuel namespace interval strategy max_rounds s) as [[rb sb] |] eqn:Eb;
    [| discriminate H].
  unfold battle, bind, log in Eb. cbn [world events logs] in Eb.
  destruct (battle_loop_stops _ _ _ _ _ _ _ _ _ Eb) as (new & E & Hs).
  cbn [events] in E.
  assert (Es : events s' = events sb).
  { destruct rb as [u | [| | | |]]; now inversion H. }
  rewrite <- Es in E. rewrite (since_app _ _ _ E) in Hin |- *.
  destruct Hs as [Hs | (-> & pre & ev' & -> & Hev' & Hpre)].
  - rewrite Forall_forall in Hs. rewrite (Hs _ Hin) in Hev. discriminate Hev.
  - apply in_app_or in Hin as [Hin | [<- | []]].
    + rewrite Forall_forall in Hpre. rewrite (Hpre _ Hin) in Hev. discriminate Hev.
    + inversion H; subst. cbn [logs]. repeat split; eauto.
Qed.

End Script.

(** ** The claims on the scripted worlds *)

(** C1, where the code departs from it.  The enumeration gives the one
    controller web and no pod; [battle] ends in that round, but through the
    test for an empty list of pods: the last line logged says that no pods
    were found, and the line that names the controller as the winner, which
    the source has after that test, is never logged. *)
Theorem C1_lone_controller_without_pods_has_no_winner :
  fst (get_controllers script_exec "demo"
         (logged INFO (MsgRound 1)
            (logged INFO (MsgStrategy "random" 10)
               (logged INFO (MsgStart "demo") (start world_lone_controller)))))
  = Ret (Pair ["web"] []) /\
  exists s',
    battle script_exec script_rand script_utcnow script_sleep
      script_strptime script_isdigit script_int
      1 "demo" 10 "random" None (start world_lone_controller) = Some (Ret tt, s') /\
    logs s' =
      [(INFO, MsgStart "demo"); (INFO, MsgStrategy "random" 10); (INFO, MsgRound 1);
       (INFO, MsgGettingControllers "demo"); (INFO, MsgFound 0 1); (INFO, MsgNoPods)] /\
    ~ In (INFO, MsgWinnerController "web") (logs s').
Proof.
  split; [reflexivity |].
  eexists. split; [vm_compute; reflexivity |]. split; [reflexivity |].
  cbn. intros H. decompose [or] H; discriminate || contradiction.
Qed.

(** The part of C1 that the code keeps: with one controller and one pod, the
    pod is declared the winner in that round. *)
Example battle_last_pod_wins :
  exists s',
    battle script_exec script_rand script_utcnow script_sleep
      script_strptime script_isdigit script_int
      1 "demo" 10 "random" None (start world_last_pod) = Some (Ret tt, s') /\
    last (logs s') (INFO, MsgNoPods) = (INFO, MsgWinnerPod "web-1") /\
    In (INFO,
        MsgPod "web-1"
          [("memory", PStr "12Mi"); ("restarts", PStr "0"); ("age", PSeconds 60000000)])
       (logs s').
Proof.
  eexists. split; [vm_compute; reflexivity |]. split; [reflexivity |].
  cbn. tauto.
Qed.

(** C2 on the world without the namespace: the first round raises, and its
    trace has no scale command. *)
Lemma C2_missing_namespace_witness :
  exists s',
    battle_loop script_exec script_rand script_utcnow script_sleep
      script_strptime script_isdigit script_int
      1 "demo" 10 "random" None 1 (start world_missing_namespace)
    = Some (Raise ValueError, s') /\
    Forall (fun ev => is_scale_event ev = false) (since (start world_missing_namespace) s').
Proof.
  destruct (C2_missing_namespace_ends_the_run
              script script_exec script_rand script_utcnow script_sleep
                script_strptime script_isdigit script_int
              "demo" 10 "random" None 1 0 (start world_missing_namespace)
              (CalledProcessError "") [] eq_refl eq_refl)
    as (s' & H & _ & Hs & _).
  exists s'. split; assumption.
Defined.

(** C3 as it was stated fails twice.  For the count zero: the string 0 is
    read, and [reduce_controller] returns [False] with the read as its only
    command, instead of a scale command for max(0, 0-1) = 0 replicas.  And
    for a count of 4301 digits, which [str.isdigit] accepts and [int]
    refuses: [reduce_controller] raises [ValueError] with the read as its
    only command. *)
Lemma C3_zero_replicas_request_nothing :
  (script_isdigit "0" = true /\ script_int "0" = Some 0 /\
   exists s',
     reduce_controller script_exec script_isdigit script_int
       (Some "web") "demo" (Some "deployment") (start world_zero_replicas)
     = (Ret false, s') /\
     events s' =
       [EvCall FnReduce;
        EvRun (replicas_cmd "deployment" "web" "demo") true (Completed "0")] /\
     forall pr,
       ~ In (EvRun (scale_cmd "deployment" "web" "demo" (Z.max 0 (0 - 1))) false pr)
            (events s')) /\
  (script_isdigit (repeated "9" 4301) = true /\
   script_int (repeated "9" 4301) = None /\
   exists s',
     reduce_controller script_exec script_isdigit script_int
       (Some "web") "demo" (Some "deployment") (start world_long_count)
     = (Raise ValueError, s') /\
     events s' =
       [EvCall FnReduce;
        EvRun (replicas_cmd "deployment" "web" "demo") true
          (Completed (repeated "9" 4301))]).
Proof.
  split.
  - split; [reflexivity |]. split; [reflexivity |].
    eexists. split; [vm_compute; reflexivity |]. split; [reflexivity |].
    intros pr H. cbn in H. decompose [or] H; discriminate || contradiction.
  - split; [vm_compute; reflexivity |]. split; [vm_compute; reflexivity |].
    eexists. split; [vm_compute; reflexivity |]. vm_compute. reflexivity.
Qed.

(** C3, as amended, on a controller with three replicas: after the read, the
    one event is the scale command for two replicas. *)
Lemma C3_reduce_requests_one_less_witness :
  let s1 :=
    snd (run_command script_exec (replicas_cmd "deployment" "web" "demo") true
           (entered FnReduce (start world_three_replicas))) in
  exists pr s',
    reduce_controller script_exec script_isdigit script_int
      (Some "web") "demo" (Some "deployment") (start world_three_replicas)
    = (match pr with
       | Completed _ => Ret true
       | CalledProcessError _ => Ret false
       | Raised e => Raise e
       end, s') /\
    since s1 s' = [EvRun (scale_cmd "deployment" "web" "demo" 2) false pr].
Proof.
  intros s1.
  destruct (C3_reduce_requests_one_less script script_exec script_isdigit script_int
              "w"%char "eb" "demo" (Some "deployment") (start world_three_replicas))
    as [Hread _].
  pose proof (Hread "3" s1 eq_refl ltac:(discriminate) eq_refl) as Hcount.
  change (script_int "3") with (Some 3) in Hcount.
  destruct Hcount as [Hpos _].
  destruct (Hpos eq_refl) as (pr & s' & Hrun & Hs & _).
  exists pr, s'. split; [exact Hrun | exact Hs].
Defined.

(** C4 as it was stated fails for a replica count of 4301 zeros.  It is a
    count of zero, and so at most zero, but [int] refuses more than 4300
    digits: [reduce_controller] issues no scale command, and it does not
    return failure, it raises [ValueError]. *)
Lemma C4_long_zero_count_raises :
  script_isdigit (repeated "0" 4301) = true /\
  decimal 0 (repeated "0" 4301) = 0 /\
  script_int (repeated "0" 4301) = None /\
  exists s',
    reduce_controller script_exec script_isdigit script_int
      (Some "web") "demo" (Some "deployment") (start world_long_zero)
    = (Raise ValueError, s') /\
    events s' =
      [EvCall FnReduce;
       EvRun (replicas_cmd "deployment" "web" "demo") true
         (Completed (repeated "0" 4301))].
Proof.
  split; [vm_compute; reflexivity |]. split; [vm_compute; reflexivity |].
  split; [vm_compute; reflexivity |].
  eexists. split; [vm_compute; reflexivity |]. vm_compute. reflexivity.
Qed.

(** C4, as amended, on a controller whose replica count reads as a word that
    is not a number, and on one whose count is 4301 zeros. *)
Lemma C4_reduce_refuses_witness :
  (exists s',
      reduce_controller script_exec script_isdigit script_int
        (Some "web") "demo" (Some "deployment") (start world_no_replica_count)
      = (Ret false, s') /\
      Forall (fun ev => is_scale_event ev = false)
        (since (start world_no_replica_count) s')) /\
  (exists s',
      reduce_controller script_exec script_isdigit script_int
        (Some "web") "demo" (Some "deployment") (start world_long_zero)
      = (Raise ValueError, s') /\
      Forall (fun ev => is_scale_event ev = false) (since (start world_long_zero) s')).
Proof.
  split.
  - destruct (proj1 (C4_reduce_refuses_without_positive_count
                       script script_exec script_isdigit script_int
                       (Some "web") "demo" (Some "deployment")
                       (start world_no_replica_count) (Some "<none>")
                       (snd (run_command script_exec
                               (replicas_cmd "deployment" "web" "demo") true
                               (entered FnReduce (start world_no_replica_count))))
                       eq_refl)
                (or_intror (or_introl eq_refl)))
      as (s' & Hrun & _ & Hs).
    exists s'. split; assumption.
  - destruct (proj2 (C4_reduce_refuses_without_positive_count
                       script script_exec script_isdigit script_int
                       (Some "web") "demo" (Some "deployment")
                       (start world_long_zero) (Some (repeated "0" 4301))
                       (snd (run_command script_exec
                               (replicas_cmd "deployment" "web" "demo") true
                               (entered FnReduce (start world_long_zero))))
                       ltac:(vm_compute; reflexivity))
                eq_refl ltac:(vm_compute; reflexivity) ltac:(vm_compute; reflexivity)
                ltac:(vm_compute; reflexivity))
      as (s' & Hrun & _ & Hs).
    exists s'. split; assumption.
Defined.

(** C5 on the world with one controller and no pod. *)
Lemma C5_empty_enumeration_witness :
  exists s',
    battle_loop script_exec script_rand script_utcnow script_sleep
      script_strptime script_isdigit script_int
      1 "demo" 10 "random" None 1 (start world_lone_controller) = Some (Ret tt, s') /\
    Forall enumerating (since (start world_lone_controller) s').
Proof.
  destruct (C5_empty_enumeration_ends_the_round
              script script_exec script_rand script_utcnow script_sleep
                script_strptime script_isdigit script_int
              "demo" 10 "random" None 1 0 (start world_lone_controller) ["web"] []
              (snd (get_controllers script_exec "demo"
                      (logged INFO (MsgRound 1) (start world_lone_controller))))
              eq_refl (or_intror eq_refl))
    as (s' & Hrun & _ & _ & Hs).
  exists s'. split; assumption.
Defined.

(** C6 as it was stated fails for a round limit below one.  The limit is
    tested at the end of a round, after its reduction, and a limit of zero
    counts as no limit there: with the limit 0 the loop enters
    [reduce_controller] once in the first round, which is more than zero
    times, and goes on to a second round; with the limit -1 it stops after
    the first round, in which it has entered [reduce_controller] once. *)
Lemma C6_round_limit_below_one_is_exceeded :
  (exists s',
      battle script_exec script_rand script_utcnow script_sleep
        script_strptime script_isdigit script_int
        2 "demo" 10 "random" (Some 0) (start world_two_rounds) = Some (Ret tt, s') /\
      reduce_calls (since (start world_two_rounds) s') = 1%nat /\
      In (INFO, MsgRound 2) (logs s') /\
      ~ Z.of_nat (reduce_calls (since (start world_two_rounds) s')) <= 0) /\
  (exists s',
      battle script_exec script_rand script_utcnow script_sleep
        script_strptime script_isdigit script_int
        1 "demo" 10 "random" (Some (-1)) (start world_two_rounds) = Some (Ret tt, s') /\
      reduce_calls (since (start world_two_rounds) s') = 1%nat /\
      ~ Z.of_nat (reduce_calls (since (start world_two_rounds) s')) <= -1).
Proof.
  split.
  - eexists. split; [vm_compute; reflexivity |]. split; [reflexivity |].
    split; [vm_compute; tauto |]. vm_compute. intros H. now apply H.
  - eexists. split; [vm_compute; reflexivity |]. split; [reflexivity |].
    vm_compute. intros H. now apply H.
Qed.

(** C6, as amended, for the limit of one round. *)
Lemma C6_round_limit_witness :
  exists r s',
    battle script_exec script_rand script_utcnow script_sleep
      script_strptime script_isdigit script_int
      1 "demo" 10 "random" (Some 1) (start world_two_rounds) = Some (r, s') /\
    Z.of_nat (reduce_calls (since (start world_two_rounds) s')) <= 1.
Proof.
  destruct (C6_round_limit_bounds_reductions
              script script_exec script_rand script_utcnow script_sleep
                script_strptime script_isdigit script_int
              "demo" 10 "random" 1 1 (start world_two_rounds) (Z.le_refl 1))
    as [Hcount Hend].
  destruct (Hend (Z.le_refl 1)) as (r & s' & Hrun).
  exists r, s'. split; [exact Hrun | exact (Hcount r s' Hrun)].
Defined.

(** C7 for the strategy oldest and two controllers: the selection returns
    the first controller, the one at the position drawn, as the strategy
    random does. *)
Lemma C7_every_strategy_witness :
  let s := start world_missing_namespace in
  let run :=
    select_controller_for_reduction script_exec script_rand
      ["web"; "db"] "demo" "oldest" s in
  fst run = Ret (Some "web", Some "replicaset") /\
  run = select_controller_for_reduction script_exec script_rand
          ["web"; "db"] "demo" "random" s /\
  (0 < 2)%nat /\
  exists c,
    nth_error ["web"; "db"] 0 = Some c /\
    firstn 2 (since s (snd run)) = [EvCall FnSelect; EvChoice 2 0] /\
    ((exists k, fst run = Ret (Some c, Some k) /\ In k kinds) \/
     (exists e, fst run = Raise e /\ exec_raised e (since s (snd run)))).
Proof.
  intros s run. split; [reflexivity |].
  exact (C7_every_strategy_selects_like_random script script_exec script_rand
           ["web"; "db"] "demo" "oldest" s
           ltac:(discriminate) (or_intror (or_intror (or_introl eq_refl)))).
Defined.






(** ** The further properties on the scripted worlds *)

(** X1 on two controllers whose probes both fail: the first one is selected,
    as a replica set. *)
Lemma X1_select_returns_a_listed_controller_witness :
  let s := start world_missing_namespace in
  let s' :=
    snd (select_controller_for_reduction script_exec script_rand
           ["web"; "db"] "demo" "random" s) in
  (["web"; "db"] = [] /\ Some "web" = None /\ Some "replicaset" = None /\
   since s s' = [EvCall FnSelect]) \/
  (exists c k, Some "web" = Some c /\ Some "replicaset" = Some k /\
               In c ["web"; "db"] /\ In k kinds).
Proof.
  intros s s'.
  exact (X1_select_returns_a_listed_controller script script_exec script_rand
           ["web"; "db"] "demo" "random" s (Some "web") (Some "replicaset") s'
           ltac:(vm_compute; reflexivity)).
Defined.


(** X3 on a controller with three replicas, whose scale command completes. *)
Lemma X3_reduce_returns_true_witness :
  let s := start world_three_replicas in
  let s' :=
    snd (reduce_controller script_exec script_isdigit script_int
           (Some "web") "demo" (Some "deployment") s) in
  true = true <->
  exists c out, In (EvRun c false (Completed out)) (since s s') /\ is_scale c = true.
Proof.
  intros s s'.
  exact (X3_reduce_returns_true_iff_scale_completed script script_exec script_isdigit script_int
           (Some "web") "demo" (Some "deployment") s true s' ltac:(vm_compute; reflexivity)).
Defined.

(** X4 on the first round of the world with two controllers. *)
Lemma X4_round_scales_witness :
  let s := start world_two_rounds in
  let s' :=
    snd (battle_round script_exec script_rand script_utcnow script_sleep
           script_strptime script_isdigit script_int "demo" 10 "random" None 1 s) in
  Forall (safe_scale "demo" ["web"; "db"]) (since s s') /\
  (scale_count (since s s') <= 1)%nat.
Proof.
  intros s s'.
  exact (X4_round_scales_only_listed_controllers
           script script_exec script_rand script_utcnow script_sleep
             script_strptime script_isdigit script_int
           "demo" 10 "random" None 1 s ["web"; "db"] ["web-1"; "db-1"]
           (snd (get_controllers script_exec "demo" (logged INFO (MsgRound 1) s)))
           (Ret Continue) s' ltac:(vm_compute; reflexivity) ltac:(vm_compute; reflexivity)).
Defined.


(** X6 on a pod without restart count and creation time. *)
Lemma X6_metrics_keys_witness :
  let m := [("cpu", PStr "5m"); ("memory", PStr "12Mi"); ("restarts", PStr "0")] in
  (exists n, map fst m = firstn n ["cpu"; "memory"; "restarts"; "age"]) /\
  NoDup (map fst m) /\
  (forall v, In ("cpu", v) m \/ In ("memory", v) m -> v = PNone \/ exists t, v = PStr t) /\
  (forall v, In ("restarts", v) m -> exists t, v = PStr t /\ t <> "") /\
  (forall v, In ("age", v) m -> exists micros, v = PSeconds micros).
Proof.
  intros m.
  exact (X6_metrics_keys_in_order script script_exec script_utcnow script_strptime
           "web-1" "demo" (start world_no_restart_count) m
           (snd (get_pod_metrics script_exec script_utcnow script_strptime
                   "web-1" "demo" (start world_no_restart_count)))
           ltac:(vm_compute; reflexivity)).
Defined.

(** X7 on the world with two controllers, when the user interrupts the wait
    after the first round. *)
Lemma X7_battle_sleeps_witness :
  let s := start world_two_rounds in
  let run :=
    battle script_exec script_rand script_utcnow script_interrupted_sleep
      script_strptime script_isdigit script_int 2 "demo" 10 "random" None s in
  let s' := match run with Some (_, s1) => s1 | None => s end in
  let r : result unit := Raise KeyboardInterrupt in
  enumerations (since s s') = S (sleeps (since s s')) /\
  Forall (sleeps_for 10) (since s s') /\
  (sleeps (since s s') = 0%nat \/ 0 <= 10) /\
  (sleep_failures (since s s') <= 1)%nat /\
  (sleep_failures (since s s') = 1%nat ->
   exists e pre, r = Raise e /\ since s s' = (pre ++ [EvSleepFailed 10 e])%list) /\
  (sleeps (since s s') + sleep_failures (since s s') <= enumerations (since s s'))%nat.
Proof.
  intros s run s' r.
  exact (X7_battle_sleeps_between_rounds
           script script_exec script_rand script_utcnow script_interrupted_sleep
           script_strptime script_isdigit script_int
           2 "demo" 10 "random" None s r s' ltac:(vm_compute; reflexivity)).
Defined.

(** X8 for an interval of minus five seconds. *)
Lemma X8_negative_interval_witness :
  let s := start world_two_rounds in
  exists r s',
    battle script_exec script_rand script_utcnow script_sleep
      script_strptime script_isdigit script_int
      3 "demo" (-5) "random" None s = Some (r, s') /\
    enumerations (since s s') = 1%nat /\ sleeps (since s s') = 0%nat.
Proof.
  intros s.
  exact (X8_negative_interval_ends_in_first_round
           script script_exec script_rand script_utcnow script_sleep
             script_strptime script_isdigit script_int
           2 "demo" (-5) "random" None s ltac:(vm_compute; reflexivity)).
Defined.


(** X10 on the name of the one controller of that world. *)
Lemma X10_enumerated_names_witness : string_all is_name_char "web" = true.
Proof.
  exact (X10_enumerated_names_hold_no_separator script script_exec "demo"
           (start world_lone_controller) ["web"] []
           (snd (get_controllers script_exec "demo" (start world_lone_controller)))
           "web" ltac:(vm_compute; reflexivity) (or_introl (or_introl eq_refl))).
Defined.

(** X11 on the world with one controller and one pod. *)
Lemma X11_last_pod_witness :
  let s := start world_last_pod in
  let s' :=
    snd (battle_round script_exec script_rand script_utcnow script_sleep
           script_strptime script_isdigit script_int "demo" 10 "random" None 1 s) in
  Forall no_reduction (since s s') /\
  ((@Ret control Break = Ret Break /\
    exists l, logs s' = (l ++ [(INFO, MsgWinnerPod "web-1")])%list) \/
   (exists e, @Ret control Break = Raise e /\ is_Exception e = false)).
Proof.
  intros s s'.
  exact (X11_last_pod_is_declared_winner
           script script_exec script_rand script_utcnow script_sleep
             script_strptime script_isdigit script_int
           "demo" 10 "random" None 1 s "web" "web-1"
           (snd (get_controllers script_exec "demo" (logged INFO (MsgRound 1) s)))
           (Ret Break) s' ltac:(vm_compute; reflexivity) ltac:(vm_compute; reflexivity)).
Defined.

(** X12 on the world with one controller and no pod: the run ends, and the
    line that names the controller as the winner is not in its log. *)
Lemma X12_no_controller_winner_witness :
  let s := start world_lone_controller in
  let run :=
    main script_exec script_rand script_utcnow script_sleep
      script_strptime script_isdigit script_int
      1 "demo" 10 "random" None s in
  let s' := match run with Some (_, s1) => s1 | None => s end in
  run = Some (Ret tt, s') /\
  ~ In (INFO, MsgWinnerController "web") (logged_since s s').
Proof.
  intros s run s'.
  split; [vm_compute; reflexivity |].
  exact (X12_no_controller_is_named_winner
           script script_exec script_rand script_utcnow script_sleep
             script_strptime script_isdigit script_int
           1 "demo" 10 "random" None s (Ret tt) s' ltac:(vm_compute; reflexivity)
           INFO "web").
Defined.

(** X13 on two pods without metrics. *)
Lemma X13_report_pods_witness :
  let s := start world_missing_namespace in
  let s' :=
    snd (report_pods script_exec script_utcnow script_strptime "demo" ["web-1"; "db-1"] s) in
  pod_lines (logged_since s s') = ["web-1"; "db-1"].
Proof.
  intros s s'.
  exact (X13_report_pods_one_line_per_pod script script_exec script_utcnow script_strptime
           "demo" ["web-1"; "db-1"] s (Ret tt) s' ltac:(vm_compute; reflexivity)).
Defined.

(** X14 on the world whose pods are gone in the second round. *)
Lemma X14_rounds_are_numbered_witness :
  let s := start world_two_rounds in
  let run :=
    battle script_exec script_rand script_utcnow script_sleep
      script_strptime script_isdigit script_int
      2 "demo" 10 "random" None s in
  let s' := match run with Some (_, s1) => s1 | None => s end in
  round_lines (logged_since s s') = map Z.of_nat (seq 1 (enumerations (since s s'))).
Proof.
  intros s run s'.
  exact (X14_rounds_are_numbered_from_one
           script script_exec script_rand script_utcnow script_sleep
             script_strptime script_isdigit script_int
           2 "demo" 10 "random" None s (Ret tt) s' ltac:(vm_compute; reflexivity)).
Defined.

(** X15 on the world in which the user interrupts the second listing. *)
Lemma X15_interrupt_witness :
  let s := start world_interrupted_listing in
  let run :=
    main script_exec script_rand script_utcnow script_sleep
      script_strptime script_isdigit script_int
      1 "demo" 10 "random" None s in
  let s' := match run with Some (_, s1) => s1 | None => s end in
  let ev := EvRun (list_cmd "statefulsets" "demo") false (Raised KeyboardInterrupt) in
  @Ret unit tt = Ret tt /\
  (exists pre, since s s' = (pre ++ [ev])%list /\
               Forall (fun ev => is_interrupt ev = false) pre) /\
  exists l, logs s' = (l ++ [(INFO, MsgStopped)])%list.
Proof.
  intros s run s' ev.
  exact (X15_interrupt_stops_the_run
           script script_exec script_rand script_utcnow script_sleep
             script_strptime script_isdigit script_int
           1 "demo" 10 "random" None s (Ret tt) s' ev ltac:(vm_compute; reflexivity)
           ltac:(vm_compute; tauto) ltac:(vm_compute; reflexivity)).
Defined.
